(** * waitFor: a shallow embedding of [src/waitFor.ts]

    The poller of web-testing-library is a closure over three mutable
    variables ([lastError], [finished], [promiseStatus]), two host timers,
    an optional abort signal and the resolving functions of the promise it
    returns.  The closure state becomes the record [Poller]; each inner
    function of [waitForImpl] ([onDone], [checkCallback], [handleTimeout],
    the two [then] handlers, the abort listener) becomes a function on that
    record; the host's event loop becomes [fire], which dispatches one host
    event to the handler the source registered for it. *)

From Stdlib Require Import String Ascii List Bool ZArith Lia.
Import ListNotations.
Open Scope string_scope.

(** ** JavaScript values *)

Module JS.

(** An [Error] instance: [name], [message] and the non-standard [stack],
    which is [None] when the runtime has no stack capability. *)
Record ErrorObj := mkError {
  name : string;
  message : string;
  stack : option string
}.

(** The values a check can return or throw.  Objects and functions carry
    their own properties as an association list; numbers are integers,
    with [VNaN] kept apart because it is falsy. *)
#[warnings="-register-all"]
Inductive Value :=
| VUndefined
| VNull
| VBool (b : bool)
| VNumber (z : Z)
| VNaN
| VString (s : string)
| VError (e : ErrorObj)
| VObject (props : list (string * Value))
| VFunction (props : list (string * Value)).

(** [typeof v] *)
Definition typeOf (v : Value) : string :=
  match v with
  | VUndefined => "undefined"
  | VNull => "object"
  | VBool _ => "boolean"
  | VNumber _ | VNaN => "number"
  | VString _ => "string"
  | VError _ | VObject _ => "object"
  | VFunction _ => "function"
  end.

(** [ToBoolean v], the test of [if (v)] *)
Definition truthy (v : Value) : bool :=
  match v with
  | VUndefined | VNull | VNaN => false
  | VBool b => b
  | VNumber z => negb (z =? 0)%Z
  | VString s => negb (s =? "")
  | VError _ | VObject _ | VFunction _ => true
  end.

(** [v !== null] *)
Definition notNull (v : Value) : bool :=
  match v with VNull => false | _ => true end.

Fixpoint lookup (k : string) (props : list (string * Value)) : Value :=
  match props with
  | [] => VUndefined
  | (k', v) :: rest => if k =? k' then v else lookup k rest
  end.

(** [v.then] for a value on which the property read does not throw; an
    [Error] instance has no [then]. *)
Definition getThen (v : Value) : Value :=
  match v with
  | VObject props | VFunction props => lookup "then" props
  | _ => VUndefined
  end.

(** [new Error(msg)] and [new TypeError(msg)], with the stack text the
    runtime attached at the place of creation. *)
Definition newError (msg : string) (stk : option string) : ErrorObj :=
  mkError "Error" msg stk.
Definition newTypeError (msg : string) (stk : option string) : ErrorObj :=
  mkError "TypeError" msg stk.

(** *** [String.prototype.replace] with a string pattern

    Only the first occurrence is replaced, and the replacement text is
    expanded: [$$] is a dollar sign, [$&] the matched text, [$`] the text
    before the match and [$'] the text after it.  A string pattern has no
    capture groups, so every other use of [$] stays as written. *)
Fixpoint dropChars (n : nat) (s : string) : string :=
  match n, s with
  | O, _ => s
  | S n', String _ s' => dropChars n' s'
  | S _, EmptyString => EmptyString
  end.

Fixpoint getSubstitution (matched before after rep : string) : string :=
  match rep with
  | EmptyString => EmptyString
  | String c rest =>
      if Ascii.eqb c "$"%char then
        match rest with
        | String d rest' =>
            if Ascii.eqb d "$"%char then
              String "$"%char (getSubstitution matched before after rest')
            else if Ascii.eqb d "&"%char then
              matched ++ getSubstitution matched before after rest'
            else if Ascii.eqb d "`"%char then
              before ++ getSubstitution matched before after rest'
            else if Ascii.eqb d "'"%char then
              after ++ getSubstitution matched before after rest'
            else String c (getSubstitution matched before after rest)
        | EmptyString => String c EmptyString
        end
      else String c (getSubstitution matched before after rest)
  end.

(** [before] is the text already scanned, kept in order. *)
Fixpoint replaceFrom (before pat rep s : string) : string :=
  if String.prefix pat s then
    let after := dropChars (String.length pat) s in
    getSubstitution pat before after rep ++ after
  else
    match s with
    | EmptyString => EmptyString
    | String c s' => String c (replaceFrom (before ++ String c EmptyString) pat rep s')
    end.

Definition replace (s pat rep : string) : string := replaceFrom "" pat rep s.

End JS.
Import JS.


(** ** The poller's state *)

(** The values [promiseStatus] takes in the source. *)
Inductive Status := Idle | Pending | StatusResolved | StatusRejected.

Definition isPending (s : Status) : bool :=
  match s with Pending => true | _ => false end.

(** What one invocation of the check does: it returns a value (plain or
    promise-like) or it throws. *)
Inductive CheckResult :=
| Returns (result : Value)
| Throws (error : Value).

(** The outward result: which resolving function of the returned promise was
    called first, and with what. *)
Inductive Outcome :=
| Resolved (result : Value)
| Rejected (error : Value).

(** What the poller does to its surroundings and observes from them, newest
    first in [log]. *)
Inductive Effect :=
| SetTimeout (ms : Z)
| SetInterval (ms : Z)
| ClearTimeout
| ClearInterval
| AddAbortListener
| Called (r : CheckResult)
| AttachThen
| DeferredFulfilled (v : Value)
| DeferredRejected (e : Value)
| CallOnTimeout (arg : Value)
| CallResolve (v : Value)
| CallReject (e : Value)
| AdvanceTimers (ms : Z).

(** An [AbortSignal]: [aborted], and [reason] as the template literal
    [`${signal.reason}`] renders it. *)
Record Signal := mkSignal {
  aborted : bool;
  reason : string
}.

(** [WaitForImplOptions] once the destructuring defaults are applied.
    [clock] records whether a fake clock was passed; [onTimeout] is taken to
    be a pure function that returns. *)
Record ImplOptions := mkImplOptions {
  clock : bool;
  timeout : Z;
  showOriginalStackTrace : bool;
  stackTraceError : ErrorObj;
  interval : Z;
  onTimeout : Value -> Value;
  signal : option Signal
}.

(** [WaitForOptions] as the caller writes it: every field may be left out. *)
Record WaitForOptions := mkWaitForOptions {
  optClock : bool;
  optTimeout : option Z;
  optShowOriginalStackTrace : option bool;
  optInterval : option Z;
  optOnTimeout : option (Value -> Value);
  optSignal : option Signal
}.

(** The places where the source creates an [Error]; the runtime decides the
    stack text of each. *)
Inductive Site := AtWaitFor | AtArgCheck | AtAbortCheck | AtAbortListener | AtHandleTimeout.

(** The runtime's stack capture: the [stack] of an error created at a site
    with a message, [None] in a runtime without [Error.prototype.stack]. *)
Definition Runtime := Site -> string -> option string.

(** The closure variables of the promise executor ([lastError], [finished],
    [promiseStatus]), the host state it owns (the two timers, the abort
    listener, the signal, the promise-like values whose handlers are
    attached and not yet called), the returned promise ([settled]), the
    number of invocations of the check so far, and the log. *)
Record Poller := mkPoller {
  lastError : Value;
  finished : bool;
  promiseStatus : Status;
  timeoutTimer : bool;
  intervalTimer : bool;
  abortListener : bool;
  sig : option Signal;
  inflight : nat;
  settled : option Outcome;
  calls : nat;
  log : list Effect
}.

Definition setLastError (e : Value) (p : Poller) : Poller :=
  mkPoller e (finished p) (promiseStatus p) (timeoutTimer p) (intervalTimer p)
    (abortListener p) (sig p) (inflight p) (settled p) (calls p) (log p).
Definition setFinished (b : bool) (p : Poller) : Poller :=
  mkPoller (lastError p) b (promiseStatus p) (timeoutTimer p) (intervalTimer p)
    (abortListener p) (sig p) (inflight p) (settled p) (calls p) (log p).
Definition setPromiseStatus (s : Status) (p : Poller) : Poller :=
  mkPoller (lastError p) (finished p) s (timeoutTimer p) (intervalTimer p)
    (abortListener p) (sig p) (inflight p) (settled p) (calls p) (log p).
Definition setTimeoutTimer (b : bool) (p : Poller) : Poller :=
  mkPoller (lastError p) (finished p) (promiseStatus p) b (intervalTimer p)
    (abortListener p) (sig p) (inflight p) (settled p) (calls p) (log p).
Definition setIntervalTimer (b : bool) (p : Poller) : Poller :=
  mkPoller (lastError p) (finished p) (promiseStatus p) (timeoutTimer p) b
    (abortListener p) (sig p) (inflight p) (settled p) (calls p) (log p).
Definition setAbortListener (b : bool) (p : Poller) : Poller :=
  mkPoller (lastError p) (finished p) (promiseStatus p) (timeoutTimer p) (intervalTimer p)
    b (sig p) (inflight p) (settled p) (calls p) (log p).
Definition setSig (s : option Signal) (p : Poller) : Poller :=
  mkPoller (lastError p) (finished p) (promiseStatus p) (timeoutTimer p) (intervalTimer p)
    (abortListener p) s (inflight p) (settled p) (calls p) (log p).
Definition setInflight (n : nat) (p : Poller) : Poller :=
  mkPoller (lastError p) (finished p) (promiseStatus p) (timeoutTimer p) (intervalTimer p)
    (abortListener p) (sig p) n (settled p) (calls p) (log p).
Definition setSettled (o : option Outcome) (p : Poller) : Poller :=
  mkPoller (lastError p) (finished p) (promiseStatus p) (timeoutTimer p) (intervalTimer p)
    (abortListener p) (sig p) (inflight p) o (calls p) (log p).
Definition setCalls (n : nat) (p : Poller) : Poller :=
  mkPoller (lastError p) (finished p) (promiseStatus p) (timeoutTimer p) (intervalTimer p)
    (abortListener p) (sig p) (inflight p) (settled p) n (log p).
Definition emit (e : Effect) (p : Poller) : Poller :=
  mkPoller (lastError p) (finished p) (promiseStatus p) (timeoutTimer p) (intervalTimer p)
    (abortListener p) (sig p) (inflight p) (settled p) (calls p) (e :: log p).

(** ** Host services *)

(** [resolve(v)] and [reject(e)] of the returned promise: the first call
    decides the promise, every later call is ignored by the host. *)
Definition resolve (v : Value) (p : Poller) : Poller :=
  let p := emit (CallResolve v) p in
  match settled p with
  | None => setSettled (Some (Resolved v)) p
  | Some _ => p
  end.

Definition reject (e : Value) (p : Poller) : Poller :=
  let p := emit (CallReject e) p in
  match settled p with
  | None => setSettled (Some (Rejected e)) p
  | Some _ => p
  end.

Definition setTimeout (ms : Z) (p : Poller) : Poller :=
  setTimeoutTimer true (emit (SetTimeout ms) p).
Definition setInterval (ms : Z) (p : Poller) : Poller :=
  setIntervalTimer true (emit (SetInterval ms) p).
Definition clearTimeout (p : Poller) : Poller :=
  setTimeoutTimer false (emit ClearTimeout p).
Definition clearInterval (p : Poller) : Poller :=
  setIntervalTimer false (emit ClearInterval p).
Definition addEventListener (p : Poller) : Poller :=
  setAbortListener true (emit AddAbortListener p).

(** [copyStackTrace(target, source)] *)
Definition copyStackTrace (target source : ErrorObj) : ErrorObj :=
  match stack source with
  | Some s => mkError (name target) (message target)
                (Some (replace s (message source) (message target)))
  | None => target
  end.

Definition TIMEOUT_MESSAGE : string := "Timed out in waitFor.".
Definition CALLBACK_MESSAGE : string := "Received `callback` arg must be a function".
Definition STACK_TRACE_MESSAGE : string := "STACK_TRACE_MESSAGE".

(** The condition under which [checkCallback] takes a result for a
    promise-like value. *)
Definition isThenable (result : Value) : bool :=
  notNull result && (typeOf result =? "object") && (typeOf (getThen result) =? "function").

(** ** The inner functions of [waitForImpl] *)

Section Handlers.

(** The runtime's stack capture, the behaviour of the check (the result of
    its k-th invocation, counting from 0: any run of an impure check is
    described by some such sequence) and the options in force. *)
Variable rt : Runtime.
Variable invoke : nat -> CheckResult.
Variable opts : ImplOptions.

(** [onDone(error, result)] *)
Definition onDone (error result : Value) (p : Poller) : Poller :=
  let p := setFinished true p in
  let p := clearTimeout p in
  let p := clearInterval p in
  if truthy error then reject error p else resolve result p.

(** The fulfilment handler passed to [thenable.then]. *)
Definition onFulfilled (resolvedValue : Value) (p : Poller) : Poller :=
  let p := setPromiseStatus StatusResolved p in
  onDone VNull resolvedValue p.

(** The rejection handler passed to [thenable.then]. *)
Definition onRejected (rejectedValue : Value) (p : Poller) : Poller :=
  let p := setPromiseStatus StatusRejected p in
  setLastError rejectedValue p.

(** [checkCallback()].  The promise-like values considered are those whose
    [then] registers the two handlers and returns; the host calls one of
    them later (see [fire]). *)
Definition checkCallback (p : Poller) : Poller :=
  if isPending (promiseStatus p) then p
  else
    let r := invoke (calls p) in
    let p := emit (Called r) (setCalls (S (calls p)) p) in
    match r with
    | Returns result =>
        if isThenable result then
          let p := setPromiseStatus Pending p in
          emit AttachThen (setInflight (S (inflight p)) p)
        else onDone VNull result p
    | Throws error => setLastError error p
    end.

(** The error [handleTimeout] builds before it calls [onTimeout]. *)
Definition timeoutError (p : Poller) : Value :=
  if truthy (lastError p) then lastError p
  else
    let error := newError TIMEOUT_MESSAGE (rt AtHandleTimeout TIMEOUT_MESSAGE) in
    if negb (showOriginalStackTrace opts)
    then VError (copyStackTrace error (stackTraceError opts))
    else VError error.

(** [handleTimeout()] *)
Definition handleTimeout (p : Poller) : Poller :=
  let error := timeoutError p in
  let p := emit (CallOnTimeout error) p in
  onDone (onTimeout opts error) VNull p.

(** [new Error(`Aborted: ${signal.reason}`)] *)
Definition abortError (site : Site) (why : string) : Value :=
  let msg := "Aborted: " ++ why in
  VError (newError msg (rt site msg)).

(** The listener registered for the signal's [abort] event. *)
Definition onAbort (why : string) (p : Poller) : Poller :=
  onDone (abortError AtAbortListener why) VNull p.

(** [!finished && !signal?.aborted], the condition of the clock loop. *)
Definition loopCondition (p : Poller) : bool :=
  negb (finished p) &&
  negb (match sig p with Some s => aborted s | None => false end).

(** One evaluation of the loop's condition and, when it holds, the call
    [clock.advanceTimersByTime(interval)].  The timers that call lets fire
    are the events that follow. *)
Definition pump (p : Poller) : Poller :=
  if clock opts && loopCondition p
  then emit (AdvanceTimers (interval opts)) p
  else p.

(** The state in which the executor starts. *)
Definition fresh : Poller :=
  mkPoller VUndefined false Idle false false false (signal opts) 0 None 0 [].

(** The executor passed to [new Promise], from its start to the point just
    before the first [checkCallback()]: the two timers are started, then
    the signal is looked at. *)
Definition beforeFirstCheck : Poller :=
  let p := fresh in
  let p := setTimeout (timeout opts) p in
  let p := setInterval (interval opts) p in
  match signal opts with
  | Some s =>
      let p := if aborted s
               then onDone (abortError AtAbortCheck (reason s)) VNull p
               else p in
      addEventListener p
  | None => p
  end.

(** The executor up to its first [await]. *)
Definition executor : Poller :=
  let p := beforeFirstCheck in
  let p := checkCallback p in
  if clock opts then pump p else p.

(** ** The host's events *)

(** What the host can deliver to a poller once [waitForImpl] has returned:
    a firing of the interval or of the deadline timer, the signal's [abort]
    event, the settlement of a promise-like value the check returned, and
    the resumption of the clock loop after its [await]. *)
Inductive Event :=
| Tick
| Deadline
| Abort (why : string)
| Fulfil (v : Value)
| RejectWith (e : Value)
| Resume.

(** The host delivers a timer's callback only while the timer is set, the
    [abort] event once and only to an attached listener, and a settlement
    only to handlers that are attached and were not called yet. *)
Definition fire (ev : Event) (p : Poller) : Poller :=
  match ev with
  | Tick => if intervalTimer p then checkCallback p else p
  | Deadline => if timeoutTimer p then handleTimeout p else p
  | Abort why =>
      match sig p with
      | Some s =>
          if aborted s then p
          else
            let p := setSig (Some (mkSignal true why)) p in
            if abortListener p then onAbort why p else p
      | None => p
      end
  | Fulfil v =>
      match inflight p with
      | S n => onFulfilled v (emit (DeferredFulfilled v) (setInflight n p))
      | O => p
      end
  | RejectWith e =>
      match inflight p with
      | S n => onRejected e (emit (DeferredRejected e) (setInflight n p))
      | O => p
      end
  | Resume => pump p
  end.

Fixpoint run (evs : list Event) (p : Poller) : Poller :=
  match evs with
  | [] => p
  | ev :: rest => run rest (fire ev p)
  end.

(** The pollers an invocation can be in: the executor's result followed by
    any events. *)
Definition reachable (p : Poller) : Prop :=
  exists evs, p = run evs executor.

End Handlers.

(** ** [waitForImpl] and [waitFor] *)

(** A call either throws synchronously, with the effects it had until then,
    or returns a promise, whose poller is given. *)
Inductive Completion :=
| Threw (error : Value) (effects : list Effect)
| Returned (p : Poller).

(** [waitForImpl(callback, options)]: [callback] is the argument as a value,
    [invoke] its behaviour when it is a function. *)
Definition waitForImpl (rt : Runtime) (callback : Value) (invoke : nat -> CheckResult)
    (opts : ImplOptions) : Completion :=
  if negb (typeOf callback =? "function") then
    Threw (VError (newTypeError CALLBACK_MESSAGE (rt AtArgCheck CALLBACK_MESSAGE))) []
  else Returned (executor rt invoke opts).

Definition orDefault {A} (o : option A) (d : A) : A :=
  match o with Some a => a | None => d end.

(** The destructuring defaults of [waitForImpl]'s second parameter. *)
Definition withDefaults (stackTraceError : ErrorObj) (o : WaitForOptions) : ImplOptions :=
  mkImplOptions (optClock o)
    (orDefault (optTimeout o) 1000%Z)
    (orDefault (optShowOriginalStackTrace o) false)
    stackTraceError
    (orDefault (optInterval o) 50%Z)
    (orDefault (optOnTimeout o) (fun error => error))
    (optSignal o).

(** [waitFor(callback, options)] *)
Definition waitFor (rt : Runtime) (callback : Value) (invoke : nat -> CheckResult)
    (options : WaitForOptions) : Completion :=
  let stackTraceError := newError STACK_TRACE_MESSAGE (rt AtWaitFor STACK_TRACE_MESSAGE) in
  waitForImpl rt callback invoke (withDefaults stackTraceError options).

(** Options with nothing set. *)
Definition noOptions : WaitForOptions :=
  mkWaitForOptions false None None None None None.

(** ** Observations on a poller *)

Definition isSettled (p : Poller) : bool :=
  match settled p with Some _ => true | None => false end.

(** The most recent failure of the check in a log: a synchronous throw or
    the rejection of a promise-like value it returned. *)
Fixpoint lastFailure (l : list Effect) : option Value :=
  match l with
  | [] => None
  | Called (Throws e) :: _ => Some e
  | DeferredRejected e :: _ => Some e
  | _ :: rest => lastFailure rest
  end.

(** The number of invocations of the check in a log. *)
Fixpoint countCalls (l : list Effect) : nat :=
  match l with
  | [] => 0
  | Called _ :: rest => S (countCalls rest)
  | _ :: rest => countCalls rest
  end.

(** The events that settle a promise-like value the check returned. *)
Definition isSettlement (ev : Event) : bool :=
  match ev with Fulfil _ | RejectWith _ => true | _ => false end.

(** The outcome an already aborted signal forces before the first check. *)
Definition presettled (rt : Runtime) (opts : ImplOptions) : option Outcome :=
  match signal opts with
  | Some s =>
      if aborted s
      then Some (Rejected (abortError rt AtAbortCheck (reason s)))
      else None
  | None => None
  end.

(** The number of calls of [clock.advanceTimersByTime] in a log. *)
Fixpoint countAdvances (l : list Effect) : nat :=
  match l with
  | [] => 0
  | AdvanceTimers _ :: rest => S (countAdvances rest)
  | _ :: rest => countAdvances rest
  end.


(** Whether a signal was passed, in which case a listener is attached. *)
Definition hasSignal (opts : ImplOptions) : bool :=
  match signal opts with Some _ => true | None => false end.

(** What holds of every reachable poller: the two timers are set exactly
    until [onDone] runs, [finished] tells whether the promise is decided,
    handlers are attached to at most one promise-like value, which is the
    one [promiseStatus] waits for, and [lastError] and [calls] agree with
    the log. *)
Record WellFormed (p : Poller) : Prop := mkWellFormed {
  wf_timeout : timeoutTimer p = negb (finished p);
  wf_interval : intervalTimer p = negb (finished p);
  wf_finished : finished p = isSettled p;
  wf_inflight : inflight p = if isPending (promiseStatus p) then 1 else 0;
  wf_lastError : lastError p = orDefault (lastFailure (log p)) VUndefined;
  wf_calls : calls p = countCalls (log p)
}.

(** ** Sample runtimes, checks and options *)

Definition newline : string := String (Ascii.ascii_of_nat 10) EmptyString.

Definition frame (site : Site) : string :=
  match site with
  | AtWaitFor => "    at waitFor (src/waitFor.ts:155:27)"
  | AtArgCheck => "    at waitForImpl (src/waitFor.ts:51:11)"
  | AtAbortCheck => "    at src/waitFor.ts:64:16"
  | AtAbortListener => "    at AbortSignal.<anonymous> (src/waitFor.ts:67:16)"
  | AtHandleTimeout => "    at handleTimeout (src/waitFor.ts:139:17)"
  end.

(** A runtime with stacks in the V8 layout: the message line, then a frame. *)
Definition withStacks : Runtime :=
  fun site msg => Some ("Error: " ++ msg ++ newline ++ frame site).

(** A runtime without [Error.prototype.stack]. *)
Definition withoutStacks : Runtime := fun _ _ => None.

(** [() => {}] and other checks. *)
Definition aFunction : Value := VFunction [].
Definition returnsUndefined : nat -> CheckResult := fun _ => Returns VUndefined.
Definition alwaysThrows (e : Value) : nat -> CheckResult := fun _ => Throws e.
Definition alwaysReturns (v : Value) : nat -> CheckResult := fun _ => Returns v.
Definition aPromise : Value := VObject [("then", VFunction [])].
Definition notDone : Value := VError (newError "not done" None).

Definition abortedSignal : Signal := mkSignal true "Bailing out".
Definition liveSignal : Signal := mkSignal false "undefined".

(** [{signal}] with the signal already aborted, and with a live one. *)
Definition optionsAborted : WaitForOptions :=
  mkWaitForOptions false None None None None (Some abortedSignal).
Definition optionsLive : WaitForOptions :=
  mkWaitForOptions false None None None None (Some liveSignal).

(** [{interval: 1}], and twenty firings of the interval timer. *)
Definition optionsEveryMillisecond : ImplOptions :=
  withDefaults (newError STACK_TRACE_MESSAGE None)
    (mkWaitForOptions false None None (Some 1%Z) None None).
Definition twentyTicks : list Event := repeat Tick 20.

(** The options of a call with a live signal, and the poller of
    [waitFor(() => {}, {signal})]. *)
Definition implOptionsLive : ImplOptions :=
  withDefaults (newError STACK_TRACE_MESSAGE (withStacks AtWaitFor STACK_TRACE_MESSAGE))
    optionsLive.
Definition settledWithLiveSignal : Poller :=
  executor withStacks returnsUndefined implOptionsLive.

(** [{timeout: 8, interval: 5}] as [waitFor] passes it on, in a runtime
    with stacks. *)
Definition optionsEightFive : ImplOptions :=
  withDefaults (newError STACK_TRACE_MESSAGE (withStacks AtWaitFor STACK_TRACE_MESSAGE))
    (mkWaitForOptions false (Some 8%Z) None (Some 5%Z) None None).

(** A check that throws [new Error('x')] when first invoked and
    [undefined] from then on. *)
Definition errorX : Value := VError (newError "x" None).
Definition throwsErrorThenUndefined : nat -> CheckResult :=
  fun k => match k with O => Throws errorX | S _ => Throws VUndefined end.

(** The timeout error with its stack moved to the frame of [waitFor]. *)
Definition relocatedTimeoutError : ErrorObj :=
  mkError "Error" TIMEOUT_MESSAGE
    (Some ("Error: Timed out in waitFor." ++ newline ++ frame AtWaitFor)).

(** [waitFor(() => {}, {timeout: 1000})] and a call with a fake clock. *)
Definition optionsOneSecond : WaitForOptions :=
  mkWaitForOptions false (Some 1000%Z) None None None None.
Definition optionsWithClock : WaitForOptions :=
  mkWaitForOptions true None None None None None.

(** [{timeout: 8, interval: 5, onTimeout: () => undefined}] *)
Definition optionsSwallowTimeout : ImplOptions :=
  withDefaults (newError STACK_TRACE_MESSAGE (withStacks AtWaitFor STACK_TRACE_MESSAGE))
    (mkWaitForOptions false (Some 8%Z) None (Some 5%Z) (Some (fun _ => VUndefined)) None).

(** The options [waitFor] passes on in a runtime without stacks. *)
Definition optionsNoStacks : ImplOptions :=
  withDefaults (newError STACK_TRACE_MESSAGE (withoutStacks AtWaitFor STACK_TRACE_MESSAGE))
    noOptions.

(** A function that carries a [then] method. *)
Definition functionWithThen : Value := VFunction [("then", VFunction [])].

(** The options [waitFor] passes on when a fake clock is given. *)
Definition implOptionsWithClock : ImplOptions :=
  withDefaults (newError STACK_TRACE_MESSAGE (withStacks AtWaitFor STACK_TRACE_MESSAGE))
    optionsWithClock.

(** A poller with a clock after two turns of the loop and a tick, and the
    same poller once the deadline has fired. *)
Definition pumpedPoller : Poller :=
  run withStacks (alwaysThrows errorX) implOptionsWithClock [Resume; Tick; Resume]
    (executor withStacks (alwaysThrows errorX) implOptionsWithClock).
Definition timedOutPoller : Poller :=
  run withStacks (alwaysThrows errorX) implOptionsWithClock [Resume; Tick; Resume; Deadline]
    (executor withStacks (alwaysThrows errorX) implOptionsWithClock).

(** A call with a live signal whose check keeps throwing, and one whose
    check has returned a promise. *)
Definition waitingWithSignal : Poller :=
  run withStacks (alwaysThrows errorX) implOptionsLive [Tick]
    (executor withStacks (alwaysThrows errorX) implOptionsLive).
Definition waitingForPromise : Poller :=
  run withStacks (alwaysReturns aPromise) optionsEightFive [Tick]
    (executor withStacks (alwaysReturns aPromise) optionsEightFive).

(** A check that throws while a resource is not there and returns it from
    its third invocation on. *)
Definition doneAtThird : nat -> CheckResult :=
  fun k => if Nat.ltb k 2 then Throws notDone else Returns (VString "Done").

(** An error captured in a runtime with stacks, and a stack that does not
    show the message of its error. *)
Definition capturedError : ErrorObj :=
  newError STACK_TRACE_MESSAGE (withStacks AtWaitFor STACK_TRACE_MESSAGE).
Definition errorWithForeignStack : ErrorObj :=
  mkError "Error" "boom" (Some "at caller (test.js:1:1)").


(** The poller of a call that returned. *)
Definition pollerOf (c : Completion) : option Poller :=
  match c with Returned p => Some p | Threw _ _ => None end.

(** ** The host's promise and the stack of a value *)


(** Whether the host's [resolve(v)] follows [v] instead of fulfilling with
    it: [v] is an object or a function and its [then] is callable. *)
Definition adoptsThen (v : Value) : bool :=
  match v with
  | VError _ | VObject _ | VFunction _ => typeOf (getThen v) =? "function"
  | _ => false
  end.

(** The state of the returned promise.  After [resolve(v)] the promise is
    fulfilled with [v], unless the host follows [v]: then the promise is
    locked to [v] and its outcome is whatever [v.then] produces later. *)
Inductive PromiseState :=
| Undecided
| Fulfilled (v : Value)
| Following (thenable : Value)
| RejectedWith (e : Value).

Definition promiseState (p : Poller) : PromiseState :=
  match settled p with
  | None => Undecided
  | Some (Resolved v) => if adoptsThen v then Following v else Fulfilled v
  | Some (Rejected e) => RejectedWith e
  end.


(** ** Counting in logs and event lists *)

(** The number of entries of a log that satisfy a test. *)
Definition countWhere (f : Effect -> bool) (l : list Effect) : nat :=
  length (filter f l).

Definition isTimerStart (e : Effect) : bool :=
  match e with SetTimeout _ | SetInterval _ => true | _ => false end.
Definition isListenerAdded (e : Effect) : bool :=
  match e with AddAbortListener => true | _ => false end.
Definition isOnTimeoutCall (e : Effect) : bool :=
  match e with CallOnTimeout _ => true | _ => false end.
Definition isAdvance (e : Effect) : bool :=
  match e with AdvanceTimers _ => true | _ => false end.


(** What one event can add to the log of a poller: timers are started and
    the listener attached by the executor only, [onTimeout] is called by
    the deadline only, the check is invoked by a tick only, the clock is
    advanced by the loop only. *)
Definition addedBy (opts : ImplOptions) (ev : Event) (p : Poller) (e : Effect) : Prop :=
  match e with
  | SetTimeout _ | SetInterval _ | AddAbortListener => False
  | CallOnTimeout _ => ev = Deadline /\ timeoutTimer p = true
  | AdvanceTimers ms =>
      ev = Resume /\ clock opts = true /\ loopCondition p = true /\ ms = interval opts
  | Called _ | AttachThen => ev = Tick /\ intervalTimer p = true
  | DeferredFulfilled v => ev = Fulfil v
  | DeferredRejected x => ev = RejectWith x
  | ClearTimeout | ClearInterval | CallResolve _ | CallReject _ => True
  end.

(** A replacement text without [$], which [replace] inserts as it is. *)
Fixpoint dollarFree (rep : string) : bool :=
  match rep with
  | EmptyString => true
  | String c rest => negb (Ascii.eqb c "$"%char) && dollarFree rest
  end.

(** [pat] occurs in [s] at the end of [a]: [s] is [a], [pat], then [b]. *)
Definition occursAfter (pat a s : string) : Prop :=
  exists b, s = a ++ pat ++ b.

(** The order in which conversion unfolds the operations on a poller: the
    handlers before [onDone], [onDone] before the host services, those
    before the field updates. *)
Strategy 30 [emit setLastError setFinished setPromiseStatus setTimeoutTimer
  setIntervalTimer setAbortListener setSig setInflight setSettled setCalls].
Strategy 20 [resolve reject setTimeout setInterval clearTimeout clearInterval
  addEventListener].
Strategy 10 [onDone].
Strategy 5 [onFulfilled onRejected checkCallback handleTimeout onAbort pump
  timeoutError].

(** * Properties *)

Ltac unfold_handlers :=
  cbv beta iota zeta delta [fire pump handleTimeout onAbort onFulfilled onRejected
    checkCallback onDone resolve reject clearTimeout clearInterval
    setTimeout setInterval addEventListener emit
    setLastError setFinished setPromiseStatus setTimeoutTimer setIntervalTimer
    setAbortListener setSig setInflight setSettled setCalls
    lastError finished promiseStatus timeoutTimer intervalTimer abortListener
    sig inflight settled calls log] in *.

Ltac split_cases :=
  repeat match goal with
  | |- context [match ?x with _ => _ end] =>
      lazymatch x with
      | context [match _ with _ => _ end] => fail
      | _ => destruct x eqn:?
      end
  end.

(** Go through the members of an explicit list of effects. *)
Ltac members :=
  let e := fresh "e" in let Hin := fresh "Hin" in
  intros e Hin; cbn [In] in Hin;
  repeat (destruct Hin as [<-|Hin]; [cbn [addedBy]; auto|]);
  try contradiction.

(** *** What [onDone] does to each field *)

Section OnDone.

Variables (error result : Value) (p : Poller).

Lemma onDone_finished : finished (onDone error result p) = true.
Proof. unfold_handlers; split_cases; reflexivity. Qed.

Lemma onDone_timeoutTimer : timeoutTimer (onDone error result p) = false.
Proof. unfold_handlers; split_cases; reflexivity. Qed.

Lemma onDone_intervalTimer : intervalTimer (onDone error result p) = false.
Proof. unfold_handlers; split_cases; reflexivity. Qed.

Lemma onDone_settled :
  settled (onDone error result p) =
  match settled p with
  | Some o => Some o
  | None => Some (if truthy error then Rejected error else Resolved result)
  end.
Proof. unfold_handlers; split_cases; reflexivity. Qed.

Lemma onDone_log :
  log (onDone error result p) =
  (if truthy error then CallReject error else CallResolve result)
    :: ClearInterval :: ClearTimeout :: log p.
Proof. unfold_handlers; split_cases; reflexivity. Qed.

Lemma onDone_lastError : lastError (onDone error result p) = lastError p.
Proof. unfold_handlers; split_cases; reflexivity. Qed.

Lemma onDone_promiseStatus : promiseStatus (onDone error result p) = promiseStatus p.
Proof. unfold_handlers; split_cases; reflexivity. Qed.

Lemma onDone_abortListener : abortListener (onDone error result p) = abortListener p.
Proof. unfold_handlers; split_cases; reflexivity. Qed.

Lemma onDone_sig : sig (onDone error result p) = sig p.
Proof. unfold_handlers; split_cases; reflexivity. Qed.

Lemma onDone_inflight : inflight (onDone error result p) = inflight p.
Proof. unfold_handlers; split_cases; reflexivity. Qed.

Lemma onDone_calls : calls (onDone error result p) = calls p.
Proof. unfold_handlers; split_cases; reflexivity. Qed.

End OnDone.

Create Rewrite HintDb poller.

#[local] Hint Rewrite onDone_finished onDone_timeoutTimer onDone_intervalTimer
  onDone_settled onDone_log onDone_lastError onDone_promiseStatus
  onDone_abortListener onDone_sig onDone_inflight onDone_calls : poller.

Lemma onDone_wf (error result : Value) (p : Poller) :
  lastError p = orDefault (lastFailure (log p)) VUndefined ->
  calls p = countCalls (log p) ->
  inflight p = (if isPending (promiseStatus p) then 1 else 0) ->
  (finished p = isSettled p) ->
  WellFormed (onDone error result p).
Proof.
  intros He Hc Hn Hf.
  constructor; unfold isSettled in *; autorewrite with poller; auto.
  - destruct (settled p); reflexivity.
  - destruct (truthy error); exact He.
  - destruct (truthy error); exact Hc.
Qed.

Section Invariants.

Variable rt : Runtime.
Variable invoke : nat -> CheckResult.
Variable opts : ImplOptions.

Lemma checkCallback_wf (p : Poller) :
  WellFormed p -> WellFormed (checkCallback invoke p).
Proof.
  intros Hwf. pose proof Hwf as [Ht Hi Hf Hn He Hc]. unfold checkCallback.
  destruct (isPending (promiseStatus p)) eqn:Hp; [assumption|].
  destruct (invoke (calls p)) as [result|error] eqn:Hr.
  - destruct (isThenable result).
    + constructor; cbn; rewrite ?Hn; auto.
    + apply onDone_wf; cbn; rewrite ?Hp; cbn; auto.
  - constructor; cbn; rewrite ?Hp; auto.
Qed.

Lemma pump_wf (p : Poller) : WellFormed p -> WellFormed (pump opts p).
Proof.
  intros [Ht Hi Hf Hn He Hc]. unfold pump.
  destruct (clock opts && loopCondition p); constructor; auto.
Qed.

Lemma beforeFirstCheck_wf : WellFormed (beforeFirstCheck rt opts).
Proof.
  assert (H1 : forall p, WellFormed p -> WellFormed (addEventListener p)).
  { intros p [Ht Hi Hf Hn He Hc]. constructor; auto. }
  assert (H2 : WellFormed (setInterval (interval opts)
                 (setTimeout (timeout opts) (fresh opts)))).
  { constructor; reflexivity. }
  unfold beforeFirstCheck. cbv zeta.
  destruct (signal opts) as [s|]; [|exact H2].
  apply H1. destruct (aborted s); [|exact H2].
  apply onDone_wf; reflexivity.
Qed.

Lemma executor_wf : WellFormed (executor rt invoke opts).
Proof.
  unfold executor. cbv zeta.
  pose proof (checkCallback_wf _ beforeFirstCheck_wf) as H.
  destruct (clock opts); auto using pump_wf.
Qed.

Lemma fire_wf (ev : Event) (p : Poller) :
  WellFormed p -> WellFormed (fire rt invoke opts ev p).
Proof.
  intros Hp. pose proof Hp as [Ht Hi Hf Hn He Hc].
  destruct ev; cbn [fire].
  - destruct (intervalTimer p); auto using checkCallback_wf.
  - destruct (timeoutTimer p); auto.
    unfold handleTimeout. apply onDone_wf; cbn; auto.
  - destruct (sig p) as [s|]; auto. destruct (aborted s); auto.
    destruct (abortListener _).
    + apply onDone_wf; cbn; auto.
    + constructor; auto.
  - destruct (inflight p) as [|n] eqn:Hin; auto.
    destruct (isPending (promiseStatus p)) eqn:Hpend; [|discriminate].
    apply onDone_wf; cbn; auto; congruence.
  - destruct (inflight p) as [|n] eqn:Hin; auto.
    destruct (isPending (promiseStatus p)) eqn:Hpend; [|discriminate].
    constructor; cbn; auto; congruence.
  - now apply pump_wf.
Qed.

Lemma run_wf (evs : list Event) : forall p,
  WellFormed p -> WellFormed (run rt invoke opts evs p).
Proof.
  induction evs as [|ev evs IH]; intros p Hp; cbn [run]; auto using fire_wf.
Qed.

Lemma reachable_wf (p : Poller) : reachable rt invoke opts p -> WellFormed p.
Proof.
  intros [evs ->]. apply run_wf, executor_wf.
Qed.

End Invariants.

Lemma settled_timers_cleared (p : Poller) (o : Outcome) :
  WellFormed p -> settled p = Some o ->
  finished p = true /\ timeoutTimer p = false /\ intervalTimer p = false.
Proof.
  intros [Ht Hi Hf _ _ _] Ho.
  assert (H : finished p = true) by (rewrite Hf; unfold isSettled; now rewrite Ho).
  rewrite H in Ht, Hi. auto.
Qed.

(** ** Stability *)

Section Stability.

Variable rt : Runtime.
Variable invoke : nat -> CheckResult.
Variable opts : ImplOptions.

(** Once the promise is decided no handler changes the decision, whether
    the host would still deliver it or not. *)
Lemma onDone_keeps (error result : Value) (p : Poller) (o : Outcome) :
  settled p = Some o -> settled (onDone error result p) = Some o.
Proof. intros H. rewrite onDone_settled, H. reflexivity. Qed.

Lemma checkCallback_keeps (p : Poller) (o : Outcome) :
  settled p = Some o -> settled (checkCallback invoke p) = Some o.
Proof.
  intros H. unfold checkCallback.
  destruct (isPending _); auto.
  destruct (invoke _) as [r|e]; [destruct (isThenable r)|]; auto.
  now apply onDone_keeps.
Qed.

Lemma handleTimeout_keeps (p : Poller) (o : Outcome) :
  settled p = Some o -> settled (handleTimeout rt opts p) = Some o.
Proof. intros H. unfold handleTimeout. now apply onDone_keeps. Qed.

Lemma onAbort_keeps (why : string) (p : Poller) (o : Outcome) :
  settled p = Some o -> settled (onAbort rt why p) = Some o.
Proof. intros H. unfold onAbort. now apply onDone_keeps. Qed.

Lemma onFulfilled_keeps (v : Value) (p : Poller) (o : Outcome) :
  settled p = Some o -> settled (onFulfilled v p) = Some o.
Proof. intros H. unfold onFulfilled. now apply onDone_keeps. Qed.

Lemma onRejected_keeps (e : Value) (p : Poller) (o : Outcome) :
  settled p = Some o -> settled (onRejected e p) = Some o.
Proof. intros H. exact H. Qed.

Lemma fire_keeps (ev : Event) (p : Poller) (o : Outcome) :
  settled p = Some o -> settled (fire rt invoke opts ev p) = Some o.
Proof.
  intros H. destruct ev; cbn [fire].
  - destruct (intervalTimer p); auto using checkCallback_keeps.
  - destruct (timeoutTimer p); auto using handleTimeout_keeps.
  - destruct (sig p) as [s|]; auto. destruct (aborted s); auto.
    destruct (abortListener _); auto. now apply onAbort_keeps.
  - destruct (inflight p); auto. now apply onFulfilled_keeps.
  - destruct (inflight p); auto.
  - unfold pump. destruct (_ && _); auto.
Qed.

Lemma run_keeps (evs : list Event) : forall (p : Poller) (o : Outcome),
  settled p = Some o -> settled (run rt invoke opts evs p) = Some o.
Proof.
  induction evs as [|ev evs IH]; intros p o H; cbn [run]; auto using fire_keeps.
Qed.

(** A cleared interval timer stays cleared, and the check is not invoked
    again. *)
Lemma fire_interval_off (ev : Event) (p : Poller) :
  intervalTimer p = false ->
  intervalTimer (fire rt invoke opts ev p) = false /\
  calls (fire rt invoke opts ev p) = calls p.
Proof.
  intros H. destruct ev; cbn [fire]; rewrite ?H; auto.
  - destruct (timeoutTimer p); auto. unfold handleTimeout.
    now rewrite onDone_intervalTimer, onDone_calls.
  - destruct (sig p) as [s|]; auto. destruct (aborted s); auto.
    destruct (abortListener _); auto. unfold onAbort.
    now rewrite onDone_intervalTimer, onDone_calls.
  - destruct (inflight p); auto. unfold onFulfilled.
    now rewrite onDone_intervalTimer, onDone_calls.
  - destruct (inflight p); auto.
  - unfold pump. destruct (_ && _); auto.
Qed.

Lemma run_interval_off (evs : list Event) : forall p : Poller,
  intervalTimer p = false ->
  intervalTimer (run rt invoke opts evs p) = false /\
  calls (run rt invoke opts evs p) = calls p.
Proof.
  induction evs as [|ev evs IH]; intros p H; cbn [run]; auto.
  destruct (fire_interval_off ev p H) as [H1 H2].
  destruct (IH _ H1) as [H3 H4]. split; congruence.
Qed.

(** The source has no [removeEventListener]: an attached listener stays. *)
Lemma fire_listener_stays (ev : Event) (p : Poller) :
  abortListener (fire rt invoke opts ev p) = abortListener p.
Proof.
  destruct ev; cbn [fire].
  - destruct (intervalTimer p); auto. unfold checkCallback.
    destruct (isPending _); auto.
    destruct (invoke _) as [r|e]; [destruct (isThenable r)|]; auto.
    now rewrite onDone_abortListener.
  - destruct (timeoutTimer p); auto. unfold handleTimeout.
    now rewrite onDone_abortListener.
  - destruct (sig p) as [s|]; auto. destruct (aborted s); auto.
    change (abortListener (setSig (Some (mkSignal true why)) p))
      with (abortListener p).
    destruct (abortListener p) eqn:E; auto. unfold onAbort.
    rewrite onDone_abortListener. exact E.
  - destruct (inflight p); auto. unfold onFulfilled.
    now rewrite onDone_abortListener.
  - destruct (inflight p); auto.
  - unfold pump. destruct (_ && _); auto.
Qed.

End Stability.

(** ** The executor *)

Section Executor.

Variable rt : Runtime.
Variable invoke : nat -> CheckResult.
Variable opts : ImplOptions.

Lemma truthy_abortError (site : Site) (why : string) :
  truthy (abortError rt site why) = true.
Proof. reflexivity. Qed.

(** The poller just before the first check. *)
Lemma beforeFirstCheck_fields :
  let p := beforeFirstCheck rt opts in
  lastError p = VUndefined /\
  promiseStatus p = Idle /\
  calls p = 0 /\
  inflight p = 0 /\
  sig p = signal opts /\
  settled p = presettled rt opts /\
  abortListener p = hasSignal opts.
Proof.
  unfold beforeFirstCheck, presettled, hasSignal, fresh. cbv zeta.
  destruct (signal opts) as [s|]; [destruct (aborted s)|];
    unfold_handlers; rewrite ?truthy_abortError; repeat split; reflexivity.
Qed.

Lemma pump_calls (p : Poller) : calls (pump opts p) = calls p.
Proof. unfold pump. destruct (_ && _); reflexivity. Qed.

Lemma pump_settled (p : Poller) : settled (pump opts p) = settled p.
Proof. unfold pump. destruct (_ && _); reflexivity. Qed.

Lemma executor_settled :
  settled (executor rt invoke opts)
  = settled (checkCallback invoke (beforeFirstCheck rt opts)).
Proof.
  unfold executor. cbv zeta. destruct (clock opts); auto using pump_settled.
Qed.

(** The first check of the executor is always made. *)
Lemma executor_calls : calls (executor rt invoke opts) = 1.
Proof.
  destruct beforeFirstCheck_fields as (_ & Hs & Hc & _).
  assert (H : calls (checkCallback invoke (beforeFirstCheck rt opts)) = 1).
  { unfold checkCallback. rewrite Hs. cbn [isPending].
    destruct (invoke _) as [r|e]; [destruct (isThenable r)|];
      rewrite ?onDone_calls; cbn [calls emit setCalls setPromiseStatus setInflight
        setLastError]; now rewrite Hc. }
  unfold executor. cbv zeta. destruct (clock opts); rewrite ?pump_calls; exact H.
Qed.

Lemma executor_aborted_settled (s : Signal) :
  signal opts = Some s -> aborted s = true ->
  settled (executor rt invoke opts)
  = Some (Rejected (abortError rt AtAbortCheck (reason s))).
Proof.
  intros Hs Ha. rewrite executor_settled.
  apply checkCallback_keeps.
  destruct beforeFirstCheck_fields as (_ & _ & _ & _ & _ & H & _).
  rewrite H. unfold presettled. now rewrite Hs, Ha.
Qed.

Lemma checkCallback_log (p : Poller) :
  exists later,
    log (checkCallback invoke p) = (later ++ log p)%list /\
    countCalls later = if isPending (promiseStatus p) then 0 else 1.
Proof.
  unfold checkCallback. destruct (isPending _).
  - exists []. split; reflexivity.
  - destruct (invoke _) as [v|e]; [destruct (isThenable v)|].
    + exists [AttachThen; Called (Returns v)]. split; reflexivity.
    + exists [CallResolve v; ClearInterval; ClearTimeout; Called (Returns v)].
      rewrite onDone_log. split; reflexivity.
    + exists [Called (Throws e)]. split; reflexivity.
Qed.

Lemma beforeFirstCheck_log_aborted (s : Signal) :
  signal opts = Some s -> aborted s = true ->
  log (beforeFirstCheck rt opts)
  = [AddAbortListener; CallReject (abortError rt AtAbortCheck (reason s));
     ClearInterval; ClearTimeout;
     SetInterval (interval opts); SetTimeout (timeout opts)].
Proof.
  intros Hs Ha. unfold beforeFirstCheck. cbv zeta. rewrite Hs, Ha.
  unfold addEventListener. cbn [log setAbortListener emit].
  rewrite onDone_log, truthy_abortError. reflexivity.
Qed.

Lemma executor_when_finished :
  finished (checkCallback invoke (beforeFirstCheck rt opts)) = true ->
  executor rt invoke opts = checkCallback invoke (beforeFirstCheck rt opts).
Proof.
  intros H. unfold executor. cbv zeta. destruct (clock opts); [|reflexivity].
  unfold pump, loopCondition. rewrite H. cbn [negb andb].
  now rewrite andb_false_r.
Qed.

End Executor.
(** C1, as the code has it: when the signal passed to [waitForImpl] is
    already aborted, the promise is rejected at once with the error
    "Aborted: <reason>" and both timers are cleared, but the first check is
    still made after that: the log of the call starts with the two timers,
    their clearing, the rejection and the listener, and what follows holds
    one invocation of the check.  The check is invoked exactly once, and no
    event that follows invokes it again or changes the rejection. *)
Theorem C1_aborted_signal_rejects_after_one_check
    (rt : Runtime) (callback : Value) (invoke : nat -> CheckResult)
    (opts : ImplOptions) (s : Signal) :
  typeOf callback = "function" ->
  signal opts = Some s ->
  aborted s = true ->
  exists p,
    waitForImpl rt callback invoke opts = Returned p /\
    settled p = Some (Rejected (abortError rt AtAbortCheck (reason s))) /\
    calls p = 1 /\
    timeoutTimer p = false /\
    intervalTimer p = false /\
    (exists later,
       log p = (later ++ [AddAbortListener;
                          CallReject (abortError rt AtAbortCheck (reason s));
                          ClearInterval; ClearTimeout;
                          SetInterval (interval opts); SetTimeout (timeout opts)])%list /\
       countCalls later = 1) /\
    forall evs,
      settled (run rt invoke opts evs p)
      = Some (Rejected (abortError rt AtAbortCheck (reason s))) /\
      calls (run rt invoke opts evs p) = 1.
Proof.
  intros Hf Hs Ha. exists (executor rt invoke opts).
  pose proof (executor_aborted_settled rt invoke opts s Hs Ha) as Hset.
  pose proof (executor_wf rt invoke opts) as [Ht Hi Hfin _ _ _].
  pose proof (executor_calls rt invoke opts) as Hc.
  assert (Hdone : finished (executor rt invoke opts) = true).
  { rewrite Hfin. unfold isSettled. now rewrite Hset. }
  rewrite Hdone in Ht, Hi. cbn [negb] in Ht, Hi.
  assert (Hlog : exists later,
      log (executor rt invoke opts)
      = (later ++ [AddAbortListener;
                   CallReject (abortError rt AtAbortCheck (reason s));
                   ClearInterval; ClearTimeout;
                   SetInterval (interval opts); SetTimeout (timeout opts)])%list /\
      countCalls later = 1).
  { rewrite executor_settled in Hset.
    destruct (settled_timers_cleared _ _
      (checkCallback_wf invoke _ (beforeFirstCheck_wf rt opts)) Hset) as (Hfin' & _).
    rewrite (executor_when_finished rt invoke opts Hfin').
    destruct (checkCallback_log invoke (beforeFirstCheck rt opts)) as (later & Hl & Hn).
    destruct (beforeFirstCheck_fields rt opts) as (_ & Hst & _).
    rewrite Hst in Hn. rewrite (beforeFirstCheck_log_aborted rt opts s Hs Ha) in Hl.
    exists later. split; assumption. }
  repeat split; auto.
  - unfold waitForImpl. now rewrite Hf.
  - now apply run_keeps.
  - destruct (run_interval_off rt invoke opts evs _ Hi) as [_ H]. congruence.
Qed.

Lemma C1_aborted_signal_witness :
  exists p,
    waitForImpl withStacks aFunction (alwaysThrows notDone)
      (withDefaults (newError STACK_TRACE_MESSAGE None) optionsAborted) = Returned p /\
    settled p = Some (Rejected (abortError withStacks AtAbortCheck "Bailing out")) /\
    calls p = 1 /\
    timeoutTimer p = false /\
    intervalTimer p = false /\
    (exists later,
       log p = (later ++ [AddAbortListener;
                          CallReject (abortError withStacks AtAbortCheck "Bailing out");
                          ClearInterval; ClearTimeout;
                          SetInterval 50; SetTimeout 1000])%list /\
       countCalls later = 1) /\
    forall evs,
      settled (run withStacks (alwaysThrows notDone)
                 (withDefaults (newError STACK_TRACE_MESSAGE None) optionsAborted) evs p)
      = Some (Rejected (abortError withStacks AtAbortCheck "Bailing out")) /\
      calls (run withStacks (alwaysThrows notDone)
               (withDefaults (newError STACK_TRACE_MESSAGE None) optionsAborted) evs p) = 1.
Proof.
  apply (C1_aborted_signal_rejects_after_one_check withStacks aFunction
           (alwaysThrows notDone)
           (withDefaults (newError STACK_TRACE_MESSAGE None) optionsAborted)
           abortedSignal); reflexivity.
Defined.

(** C1 as stated fails: with an aborted signal and a check that throws, the
    call is rejected as aborted and the check has been invoked once, not
    zero times. *)
Lemma C1_check_runs_once_counterexample :
  option_map settled
    (pollerOf (waitFor withStacks aFunction (alwaysThrows notDone) optionsAborted))
  = Some (Some (Rejected (abortError withStacks AtAbortCheck "Bailing out"))) /\
  option_map calls
    (pollerOf (waitFor withStacks aFunction (alwaysThrows notDone) optionsAborted))
  = Some 1 /\
  option_map calls
    (pollerOf (waitFor withStacks aFunction (alwaysThrows notDone) optionsAborted))
  <> Some 0.
Proof. vm_compute. repeat split; discriminate. Qed.

(** ** The guard on a pending promise *)

Section PendingGuard.

Variable rt : Runtime.
Variable invoke : nat -> CheckResult.
Variable opts : ImplOptions.

Lemma checkCallback_pending (p : Poller) :
  promiseStatus p = Pending -> checkCallback invoke p = p.
Proof. intros H. unfold checkCallback. now rewrite H. Qed.

Lemma checkCallback_deferred (p : Poller) (r : Value) :
  isPending (promiseStatus p) = false ->
  invoke (calls p) = Returns r ->
  isThenable r = true ->
  promiseStatus (checkCallback invoke p) = Pending /\
  calls (checkCallback invoke p) = S (calls p).
Proof.
  intros Hp Hr Ht. unfold checkCallback. rewrite Hp, Hr, Ht. split; reflexivity.
Qed.

Lemma fire_pending (ev : Event) (p : Poller) :
  isSettlement ev = false ->
  promiseStatus p = Pending ->
  promiseStatus (fire rt invoke opts ev p) = Pending /\
  calls (fire rt invoke opts ev p) = calls p.
Proof.
  intros Hev Hp. destruct ev; try discriminate; cbn [fire].
  - rewrite (checkCallback_pending p Hp). destruct (intervalTimer p); auto.
  - destruct (timeoutTimer p); auto. unfold handleTimeout.
    rewrite onDone_promiseStatus, onDone_calls. auto.
  - destruct (sig p) as [s|]; auto. destruct (aborted s); auto.
    destruct (abortListener _); auto. unfold onAbort.
    rewrite onDone_promiseStatus, onDone_calls. auto.
  - unfold pump. destruct (_ && _); auto.
Qed.

Lemma run_pending (evs : list Event) : forall p : Poller,
  forallb (fun ev => negb (isSettlement ev)) evs = true ->
  promiseStatus p = Pending ->
  promiseStatus (run rt invoke opts evs p) = Pending /\
  calls (run rt invoke opts evs p) = calls p.
Proof.
  induction evs as [|ev evs IH]; intros p Hevs Hp; cbn [run]; auto.
  cbn [forallb] in Hevs. apply andb_prop in Hevs as [Hev Hevs].
  apply negb_true_iff in Hev.
  destruct (fire_pending ev p Hev Hp) as [H1 H2].
  destruct (IH _ Hevs H1) as [H3 H4]. split; congruence.
Qed.

End PendingGuard.

(** C2: when an invocation of the check returns a promise-like value, the
    check is not invoked again for as long as that value has not settled:
    whatever events other than its settlement follow (interval ticks, the
    deadline, an abort, the clock loop), the number of invocations stays
    what it was, and a direct call of [checkCallback], whoever makes it,
    returns without doing anything. *)
Theorem C2_pending_promise_blocks_rechecks
    (rt : Runtime) (invoke : nat -> CheckResult) (opts : ImplOptions)
    (p : Poller) (r : Value) (evs : list Event) :
  isPending (promiseStatus p) = false ->
  invoke (calls p) = Returns r ->
  isThenable r = true ->
  forallb (fun ev => negb (isSettlement ev)) evs = true ->
  let q := run rt invoke opts evs (checkCallback invoke p) in
  calls q = S (calls p) /\
  promiseStatus q = Pending /\
  checkCallback invoke q = q.
Proof.
  intros Hp Hr Ht Hevs q.
  destruct (checkCallback_deferred invoke p r Hp Hr Ht) as [H1 H2].
  destruct (run_pending rt invoke opts evs _ Hevs H1) as [H3 H4].
  subst q. repeat split; try congruence.
  now apply checkCallback_pending.
Qed.

Lemma C2_twenty_ticks_witness :
  let q := run withStacks (alwaysReturns aPromise) optionsEveryMillisecond twentyTicks
             (checkCallback (alwaysReturns aPromise)
                (beforeFirstCheck withStacks optionsEveryMillisecond)) in
  calls q = 1 /\ promiseStatus q = Pending /\
  checkCallback (alwaysReturns aPromise) q = q.
Proof.
  apply (C2_pending_promise_blocks_rechecks withStacks (alwaysReturns aPromise)
           optionsEveryMillisecond
           (beforeFirstCheck withStacks optionsEveryMillisecond)
           aPromise twentyTicks); vm_compute; reflexivity.
Defined.

(** The example of C2: with an interval of 1 ms and a promise that is
    fulfilled after twenty ticks, the call resolves with the fulfilment
    value and the check has been invoked exactly once. *)
Example twenty_ticks_then_fulfilled :
  let q := run withStacks (alwaysReturns aPromise) optionsEveryMillisecond
             (twentyTicks ++ [Fulfil VUndefined])
             (executor withStacks (alwaysReturns aPromise) optionsEveryMillisecond) in
  calls q = 1 /\ settled q = Some (Resolved VUndefined).
Proof. vm_compute. split; reflexivity. Qed.

(** ** Settlement *)

Section Settlement.

Variable rt : Runtime.
Variable invoke : nat -> CheckResult.
Variable opts : ImplOptions.

Lemma checkCallback_listener (p : Poller) :
  abortListener (checkCallback invoke p) = abortListener p.
Proof.
  unfold checkCallback. destruct (isPending _); auto.
  destruct (invoke _) as [r|e]; [destruct (isThenable r)|]; auto.
  now rewrite onDone_abortListener.
Qed.

Lemma executor_listener : abortListener (executor rt invoke opts) = hasSignal opts.
Proof.
  destruct (beforeFirstCheck_fields rt opts) as (_ & _ & _ & _ & _ & _ & H).
  unfold executor. cbv zeta.
  assert (H' : forall p, abortListener (pump opts p) = abortListener p).
  { intros p. unfold pump. destruct (_ && _); reflexivity. }
  destruct (clock opts); rewrite ?H', checkCallback_listener; exact H.
Qed.

Lemma run_listener_stays (evs : list Event) : forall p : Poller,
  abortListener (run rt invoke opts evs p) = abortListener p.
Proof.
  induction evs as [|ev evs IH]; intros p; cbn [run]; auto.
  rewrite IH. apply fire_listener_stays.
Qed.

Lemma reachable_listener (p : Poller) :
  reachable rt invoke opts p -> abortListener p = hasSignal opts.
Proof.
  intros [evs ->]. rewrite run_listener_stays. apply executor_listener.
Qed.

End Settlement.

(** C3, as the code has it: a poller settles at most once and the first
    settlement wins.  In every poller that has settled, both timers are
    cleared and [finished] is set; no later event changes the outward
    result or invokes the check, and neither would any handler if it were
    still called ([checkCallback], [handleTimeout], the abort listener, the
    two [then] handlers).  The abort listener is not detached: it is
    attached exactly when a signal was passed and stays attached after
    settlement. *)
Theorem C3_first_settlement_wins
    (rt : Runtime) (invoke : nat -> CheckResult) (opts : ImplOptions)
    (p : Poller) (o : Outcome) :
  reachable rt invoke opts p ->
  settled p = Some o ->
  (finished p = true /\ timeoutTimer p = false /\ intervalTimer p = false) /\
  (forall evs,
     settled (run rt invoke opts evs p) = Some o /\
     calls (run rt invoke opts evs p) = calls p /\
     abortListener (run rt invoke opts evs p) = hasSignal opts) /\
  settled (checkCallback invoke p) = Some o /\
  settled (handleTimeout rt opts p) = Some o /\
  (forall why, settled (onAbort rt why p) = Some o) /\
  (forall v, settled (onFulfilled v p) = Some o) /\
  (forall e, settled (onRejected e p) = Some o).
Proof.
  intros Hr Ho.
  pose proof (settled_timers_cleared p o (reachable_wf rt invoke opts p Hr) Ho)
    as (Hf & Ht & Hi).
  repeat split; auto.
  - now apply run_keeps.
  - now destruct (run_interval_off rt invoke opts evs p Hi).
  - rewrite run_listener_stays. exact (reachable_listener rt invoke opts p Hr).
  - now apply checkCallback_keeps.
  - now apply handleTimeout_keeps.
  - intros why. now apply onAbort_keeps.
  - intros v. now apply onFulfilled_keeps.
Qed.

Lemma C3_first_settlement_witness :
  (finished settledWithLiveSignal = true /\
   timeoutTimer settledWithLiveSignal = false /\
   intervalTimer settledWithLiveSignal = false) /\
  (forall evs,
     settled (run withStacks returnsUndefined implOptionsLive evs settledWithLiveSignal)
     = Some (Resolved VUndefined) /\
     calls (run withStacks returnsUndefined implOptionsLive evs settledWithLiveSignal)
     = calls settledWithLiveSignal /\
     abortListener (run withStacks returnsUndefined implOptionsLive evs settledWithLiveSignal)
     = hasSignal implOptionsLive) /\
  settled (checkCallback returnsUndefined settledWithLiveSignal) = Some (Resolved VUndefined) /\
  settled (handleTimeout withStacks implOptionsLive settledWithLiveSignal)
  = Some (Resolved VUndefined) /\
  (forall why, settled (onAbort withStacks why settledWithLiveSignal)
               = Some (Resolved VUndefined)) /\
  (forall v, settled (onFulfilled v settledWithLiveSignal) = Some (Resolved VUndefined)) /\
  (forall e, settled (onRejected e settledWithLiveSignal) = Some (Resolved VUndefined)).
Proof.
  apply (C3_first_settlement_wins withStacks returnsUndefined implOptionsLive
           settledWithLiveSignal (Resolved VUndefined)).
  - exists []. vm_compute. reflexivity.
  - vm_compute. reflexivity.
Defined.

(** C3 as stated fails on the listener: [waitFor(() => {}, {signal})] with a
    live signal settles in its first check, and at that settlement and
    after it the abort listener is attached; when the signal is aborted
    later the listener runs and calls [reject] again, which the settled
    promise ignores. *)
Lemma C3_listener_stays_counterexample :
  option_map settled
    (pollerOf (waitFor withStacks aFunction returnsUndefined optionsLive))
  = Some (Some (Resolved VUndefined)) /\
  option_map abortListener
    (pollerOf (waitFor withStacks aFunction returnsUndefined optionsLive))
  = Some true /\
  option_map abortListener
    (pollerOf (waitFor withStacks aFunction returnsUndefined optionsLive))
  <> Some false /\
  hd_error (log (fire withStacks returnsUndefined implOptionsLive (Abort "late")
                   settledWithLiveSignal))
  = Some (CallReject (abortError withStacks AtAbortListener "late")) /\
  settled (fire withStacks returnsUndefined implOptionsLive (Abort "late")
             settledWithLiveSignal)
  = Some (Resolved VUndefined).
Proof. vm_compute. repeat split; discriminate. Qed.

(** ** The deadline *)

Lemma copyStackTrace_message (target source : ErrorObj) :
  name (copyStackTrace target source) = name target /\
  message (copyStackTrace target source) = message target.
Proof. unfold copyStackTrace. destruct (stack source); split; reflexivity. Qed.

Section DeadlineFires.

Variable rt : Runtime.
Variable invoke : nat -> CheckResult.
Variable opts : ImplOptions.

(** While the deadline timer is set, nothing is decided. *)
Lemma timer_set_unsettled (p : Poller) :
  WellFormed p -> timeoutTimer p = true -> settled p = None.
Proof.
  intros [Ht _ Hf _ _ _] H. rewrite H in Ht.
  destruct (finished p) eqn:E; [discriminate|].
  unfold isSettled in Hf. destruct (settled p); [discriminate|reflexivity].
Qed.

Lemma handleTimeout_settled (p : Poller) :
  settled p = None ->
  settled (handleTimeout rt opts p)
  = Some (if truthy (onTimeout opts (timeoutError rt opts p))
          then Rejected (onTimeout opts (timeoutError rt opts p))
          else Resolved VNull).
Proof.
  intros H. unfold handleTimeout. rewrite onDone_settled.
  cbn [settled emit]. now rewrite H.
Qed.

Lemma handleTimeout_log (p : Poller) :
  log (handleTimeout rt opts p)
  = (if truthy (onTimeout opts (timeoutError rt opts p))
     then CallReject (onTimeout opts (timeoutError rt opts p))
     else CallResolve VNull)
    :: ClearInterval :: ClearTimeout
    :: CallOnTimeout (timeoutError rt opts p) :: log p.
Proof. unfold handleTimeout. rewrite onDone_log. reflexivity. Qed.

End DeadlineFires.

(** C4, as the code has it: when the deadline fires, the terminal error is
    the most recently recorded failure of the check (a throw or the
    rejection of a promise it returned) when that value is truthy, and
    otherwise, when the most recent failure is falsy or none was recorded,
    a new [Error] whose message is "Timed out in waitFor."; an earlier
    truthy failure that a falsy one has overwritten is not reported.  The
    terminal error is passed to [onTimeout] before the timers are cleared
    and the promise is decided, and the poller settles with what
    [onTimeout] returns: a rejection with it when it is truthy. *)
Theorem C4_deadline_reports_most_recent_failure
    (rt : Runtime) (invoke : nat -> CheckResult) (opts : ImplOptions) (p : Poller) :
  reachable rt invoke opts p ->
  timeoutTimer p = true ->
  exists generic terminal,
    name generic = "Error" /\
    message generic = TIMEOUT_MESSAGE /\
    terminal = match lastFailure (log p) with
               | Some e => if truthy e then e else VError generic
               | None => VError generic
               end /\
    log (fire rt invoke opts Deadline p)
    = (if truthy (onTimeout opts terminal)
       then CallReject (onTimeout opts terminal) else CallResolve VNull)
      :: ClearInterval :: ClearTimeout :: CallOnTimeout terminal :: log p /\
    settled (fire rt invoke opts Deadline p)
    = Some (if truthy (onTimeout opts terminal)
            then Rejected (onTimeout opts terminal) else Resolved VNull).
Proof.
  intros Hr Ht.
  pose proof (reachable_wf rt invoke opts p Hr) as Hwf.
  pose proof (timer_set_unsettled p Hwf Ht) as Hnone.
  destruct Hwf as [_ _ _ _ He _].
  set (error := newError TIMEOUT_MESSAGE (rt AtHandleTimeout TIMEOUT_MESSAGE)).
  exists (if negb (showOriginalStackTrace opts)
          then copyStackTrace error (stackTraceError opts) else error).
  exists (timeoutError rt opts p).
  repeat split.
  - destruct (negb _); [apply copyStackTrace_message|reflexivity].
  - destruct (negb _); [apply copyStackTrace_message|reflexivity].
  - unfold timeoutError. rewrite He. fold error.
    destruct (lastFailure (log p)) as [e|]; cbn [orDefault];
      [destruct (truthy e)|]; try reflexivity; destruct (negb _); reflexivity.
  - cbn [fire]. rewrite Ht. apply handleTimeout_log.
  - cbn [fire]. rewrite Ht. now apply handleTimeout_settled.
Qed.

Lemma C4_deadline_witness :
  exists generic terminal,
    name generic = "Error" /\
    message generic = TIMEOUT_MESSAGE /\
    terminal = match lastFailure (log (executor withStacks (alwaysThrows errorX)
                                         optionsEightFive)) with
               | Some e => if truthy e then e else VError generic
               | None => VError generic
               end /\
    log (fire withStacks (alwaysThrows errorX) optionsEightFive Deadline
           (executor withStacks (alwaysThrows errorX) optionsEightFive))
    = (if truthy (onTimeout optionsEightFive terminal)
       then CallReject (onTimeout optionsEightFive terminal) else CallResolve VNull)
      :: ClearInterval :: ClearTimeout :: CallOnTimeout terminal
      :: log (executor withStacks (alwaysThrows errorX) optionsEightFive) /\
    settled (fire withStacks (alwaysThrows errorX) optionsEightFive Deadline
               (executor withStacks (alwaysThrows errorX) optionsEightFive))
    = Some (if truthy (onTimeout optionsEightFive terminal)
            then Rejected (onTimeout optionsEightFive terminal) else Resolved VNull).
Proof.
  apply (C4_deadline_reports_most_recent_failure withStacks (alwaysThrows errorX)
           optionsEightFive (executor withStacks (alwaysThrows errorX) optionsEightFive)).
  - exists []. vm_compute. reflexivity.
  - vm_compute. reflexivity.
Defined.

(** C4 as stated fails: with [{timeout: 8, interval: 5}], a check that
    throws [new Error('x')] at the first invocation and [undefined] at the
    tick after 5 ms has failed with a truthy value, yet at the deadline the
    call is rejected with the generic timeout error, not with that error. *)
Lemma C4_overwritten_failure_counterexample :
  let q := run withStacks throwsErrorThenUndefined optionsEightFive [Tick; Deadline]
             (executor withStacks throwsErrorThenUndefined optionsEightFive) in
  In (Called (Throws errorX)) (log q) /\
  truthy errorX = true /\
  settled q = Some (Rejected (VError relocatedTimeoutError)) /\
  settled q <> Some (Rejected errorX).
Proof.
  vm_compute. repeat split; try discriminate.
  repeat (first [left; reflexivity | right]).
Qed.

(** The examples of the spec: a check that always throws an error is
    reported with that error, one that always throws [undefined] with the
    timeout message. *)
Example always_throws_error :
  settled (run withStacks (alwaysThrows errorX) optionsEightFive [Tick; Deadline]
             (executor withStacks (alwaysThrows errorX) optionsEightFive))
  = Some (Rejected errorX).
Proof. vm_compute. reflexivity. Qed.

Example always_throws_undefined :
  settled (run withStacks (alwaysThrows VUndefined) optionsEightFive [Tick; Deadline]
             (executor withStacks (alwaysThrows VUndefined) optionsEightFive))
  = Some (Rejected (VError relocatedTimeoutError)) /\
  message relocatedTimeoutError = "Timed out in waitFor.".
Proof. vm_compute. split; reflexivity. Qed.

(** ** The argument check *)

(** C5: for every argument that is not a function, [waitForImpl], and so
    [waitFor], throws synchronously a [TypeError] whose message is
    "Received `callback` arg must be a function"; no promise is returned and
    the list of effects at the throw is empty: no timer was started, no
    listener attached and the argument was not called. *)
Theorem C5_non_function_throws_synchronously
    (rt : Runtime) (callback : Value) (invoke : nat -> CheckResult)
    (opts : ImplOptions) (options : WaitForOptions) :
  (typeOf callback =? "function") = false ->
  exists e,
    name e = "TypeError" /\
    message e = "Received `callback` arg must be a function" /\
    waitForImpl rt callback invoke opts = Threw (VError e) [] /\
    waitFor rt callback invoke options = Threw (VError e) [] /\
    pollerOf (waitFor rt callback invoke options) = None.
Proof.
  intros H.
  exists (newTypeError CALLBACK_MESSAGE (rt AtArgCheck CALLBACK_MESSAGE)).
  unfold waitFor, waitForImpl. rewrite H. cbn [negb pollerOf].
  repeat split; reflexivity.
Qed.

Lemma C5_null_witness :
  exists e,
    name e = "TypeError" /\
    message e = "Received `callback` arg must be a function" /\
    waitForImpl withStacks VNull returnsUndefined optionsEightFive = Threw (VError e) [] /\
    waitFor withStacks VNull returnsUndefined noOptions = Threw (VError e) [] /\
    pollerOf (waitFor withStacks VNull returnsUndefined noOptions) = None.
Proof.
  apply (C5_non_function_throws_synchronously withStacks VNull returnsUndefined
           optionsEightFive noOptions).
  reflexivity.
Defined.

(** [waitFor(someElement)] with [someElement = {}], as in the tests. *)
Example object_is_not_a_function :
  waitFor withoutStacks (VObject []) returnsUndefined noOptions
  = Threw (VError (mkError "TypeError" "Received `callback` arg must be a function" None)) [].
Proof. reflexivity. Qed.

(** ** The first check *)

Section FirstCheck.

Variable rt : Runtime.
Variable invoke : nat -> CheckResult.
Variable opts : ImplOptions.

Lemma firstCheck_settled :
  settled (checkCallback invoke (beforeFirstCheck rt opts))
  = match presettled rt opts with
    | Some o => Some o
    | None =>
        match invoke 0 with
        | Returns v => if isThenable v then None else Some (Resolved v)
        | Throws _ => None
        end
    end.
Proof.
  destruct (beforeFirstCheck_fields rt opts) as (_ & Hs & Hc & _ & _ & Ho & _).
  unfold checkCallback. rewrite Hs, Hc. cbn [isPending].
  destruct (invoke 0) as [v|e]; [destruct (isThenable v)|];
    rewrite ?onDone_settled; cbn [settled emit setCalls setPromiseStatus setInflight
      setLastError truthy]; rewrite Ho; destruct (presettled rt opts); reflexivity.
Qed.

Lemma beforeFirstCheck_no_advance :
  countAdvances (log (beforeFirstCheck rt opts)) = 0.
Proof.
  unfold beforeFirstCheck, fresh. cbv zeta.
  destruct (signal opts) as [s|]; [destruct (aborted s)|];
    unfold_handlers; rewrite ?truthy_abortError; reflexivity.
Qed.

Lemma checkCallback_no_advance (p : Poller) :
  countAdvances (log (checkCallback invoke p)) = countAdvances (log p).
Proof.
  unfold checkCallback. destruct (isPending _); auto.
  destruct (invoke _) as [v|e]; [destruct (isThenable v)|]; auto.
  rewrite onDone_log. cbn [truthy]. reflexivity.
Qed.

Lemma pump_finished (p : Poller) : finished p = true -> pump opts p = p.
Proof.
  intros H. unfold pump, loopCondition. rewrite H.
  cbn [negb andb]. now rewrite andb_false_r.
Qed.

End FirstCheck.

(** C6, as the code has it: the first invocation of the check is made
    inside the call, before any event is delivered.  When that invocation
    returns a value that is not promise-like, the poller is decided when
    the call returns: resolved with that value, unless the signal passed
    was already aborted, in which case the rejection made before the check
    stands.  In a poller decided by then both timers are cleared and the
    clock loop is not entered, so no timer is waited for. *)
Theorem C6_first_check_is_synchronous
    (rt : Runtime) (callback : Value) (invoke : nat -> CheckResult)
    (opts : ImplOptions) :
  typeOf callback = "function" ->
  exists p,
    waitForImpl rt callback invoke opts = Returned p /\
    calls p = 1 /\
    settled p = match presettled rt opts with
                | Some o => Some o
                | None =>
                    match invoke 0 with
                    | Returns v => if isThenable v then None else Some (Resolved v)
                    | Throws _ => None
                    end
                end /\
    (settled p <> None ->
     timeoutTimer p = false /\ intervalTimer p = false /\
     loopCondition p = false /\ countAdvances (log p) = 0).
Proof.
  intros Hf. exists (executor rt invoke opts). repeat split.
  - unfold waitForImpl. now rewrite Hf.
  - apply executor_calls.
  - rewrite executor_settled. apply firstCheck_settled.
  - destruct (settled (executor rt invoke opts)) as [o|] eqn:Ho; [|congruence].
    now destruct (settled_timers_cleared _ o (executor_wf rt invoke opts) Ho) as (_ & ? & _).
  - destruct (settled (executor rt invoke opts)) as [o|] eqn:Ho; [|congruence].
    now destruct (settled_timers_cleared _ o (executor_wf rt invoke opts) Ho) as (_ & _ & ?).
  - destruct (settled (executor rt invoke opts)) as [o|] eqn:Ho; [|congruence].
    destruct (settled_timers_cleared _ o (executor_wf rt invoke opts) Ho) as (Hfin & _).
    unfold loopCondition. now rewrite Hfin.
  - destruct (settled (executor rt invoke opts)) as [o|] eqn:Ho; [|congruence].
    rewrite executor_settled in Ho.
    assert (Hfin : finished (checkCallback invoke (beforeFirstCheck rt opts)) = true).
    { now destruct (settled_timers_cleared _ o
        (checkCallback_wf invoke _ (beforeFirstCheck_wf rt opts)) Ho). }
    unfold executor. cbv zeta.
    destruct (clock opts); rewrite ?(pump_finished opts _ Hfin);
      rewrite checkCallback_no_advance; apply beforeFirstCheck_no_advance.
Qed.

Lemma C6_void_callback_witness :
  exists p,
    waitForImpl withStacks aFunction returnsUndefined
      (withDefaults (newError STACK_TRACE_MESSAGE None) optionsOneSecond) = Returned p /\
    calls p = 1 /\
    settled p = match presettled withStacks
                        (withDefaults (newError STACK_TRACE_MESSAGE None) optionsOneSecond) with
                | Some o => Some o
                | None =>
                    match returnsUndefined 0 with
                    | Returns v => if isThenable v then None else Some (Resolved v)
                    | Throws _ => None
                    end
                end /\
    (settled p <> None ->
     timeoutTimer p = false /\ intervalTimer p = false /\
     loopCondition p = false /\ countAdvances (log p) = 0).
Proof.
  apply (C6_first_check_is_synchronous withStacks aFunction returnsUndefined
           (withDefaults (newError STACK_TRACE_MESSAGE None) optionsOneSecond)).
  reflexivity.
Defined.

(** The example of C6: [waitFor(() => {}, {timeout: 1000})] is resolved with
    [undefined] when the call returns, with a fake clock as without. *)
Example void_callback_resolves_at_once :
  option_map settled
    (pollerOf (waitFor withStacks aFunction returnsUndefined optionsOneSecond))
  = Some (Some (Resolved VUndefined)) /\
  option_map settled
    (pollerOf (waitFor withStacks aFunction returnsUndefined optionsWithClock))
  = Some (Some (Resolved VUndefined)) /\
  option_map (fun p => countAdvances (log p))
    (pollerOf (waitFor withStacks aFunction returnsUndefined optionsWithClock))
  = Some 0.
Proof. vm_compute. repeat split; reflexivity. Qed.

(** C6 as stated fails when the signal is already aborted: the check
    [() => {}] is invoked once and succeeds, yet the call is rejected as
    aborted and not resolved with [undefined]. *)
Lemma C6_aborted_signal_counterexample :
  returnsUndefined 0 = Returns VUndefined /\
  option_map calls
    (pollerOf (waitFor withStacks aFunction returnsUndefined optionsAborted))
  = Some 1 /\
  option_map settled
    (pollerOf (waitFor withStacks aFunction returnsUndefined optionsAborted))
  = Some (Some (Rejected (abortError withStacks AtAbortCheck "Bailing out"))) /\
  option_map settled
    (pollerOf (waitFor withStacks aFunction returnsUndefined optionsAborted))
  <> Some (Some (Resolved VUndefined)).
Proof. vm_compute. repeat split; discriminate. Qed.

(** ** Failures of the check *)

Section Recovery.

Variable rt : Runtime.
Variable invoke : nat -> CheckResult.
Variable opts : ImplOptions.




End Recovery.



(** A promise returned at the first check is rejected after some ticks: the
    rejection is kept for the deadline and the next tick invokes the check
    again. *)
Example rejection_then_recheck :
  let q := run withStacks (alwaysReturns aPromise) optionsEveryMillisecond
             [Tick; Tick; RejectWith errorX]
             (executor withStacks (alwaysReturns aPromise) optionsEveryMillisecond) in
  settled q = None /\ lastError q = errorX /\ calls q = 1 /\
  calls (fire withStacks (alwaysReturns aPromise) optionsEveryMillisecond Tick q) = 2.
Proof. vm_compute. repeat split; reflexivity. Qed.

(** ** [replace] and [copyStackTrace] *)

Lemma append_nil_r (a : string) : a ++ "" = a.
Proof. induction a as [|c a IH]; cbn; congruence. Qed.

Lemma append_assoc (a b c : string) : (a ++ b) ++ c = a ++ (b ++ c).
Proof. induction a as [|x a IH]; cbn; congruence. Qed.

Lemma prefix_append (pat b : string) : String.prefix pat (pat ++ b) = true.
Proof.
  induction pat as [|c pat IH]; cbn; [destruct b; reflexivity|].
  destruct (ascii_dec c c); [exact IH|congruence].
Qed.

Lemma dropChars_append (pat b : string) : dropChars (String.length pat) (pat ++ b) = b.
Proof. induction pat as [|c pat IH]; cbn; auto. Qed.

Lemma prefix_split (pat : string) : forall s : string,
  String.prefix pat s = true -> exists b, s = pat ++ b.
Proof.
  induction pat as [|c pat IH]; intros s H.
  - exists s. reflexivity.
  - destruct s as [|d s]; cbn in H; [discriminate|].
    destruct (ascii_dec c d) as [->|]; [|discriminate].
    destruct (IH s H) as [b ->]. exists b. reflexivity.
Qed.

Lemma replaceFrom_eq (before pat rep s : string) :
  replaceFrom before pat rep s
  = if String.prefix pat s then
      getSubstitution pat before (dropChars (String.length pat) s) rep
        ++ dropChars (String.length pat) s
    else match s with
         | EmptyString => EmptyString
         | String c s' => String c (replaceFrom (before ++ String c EmptyString) pat rep s')
         end.
Proof. destruct s; reflexivity. Qed.

Lemma getSubstitution_dollarFree (matched before after : string) : forall rep : string,
  dollarFree rep = true -> getSubstitution matched before after rep = rep.
Proof.
  induction rep as [|c rep IH]; intros H; [reflexivity|].
  cbn [dollarFree] in H. apply andb_prop in H as [Hc Hrest].
  apply negb_true_iff in Hc. cbn [getSubstitution]. rewrite Hc.
  now rewrite (IH Hrest).
Qed.

(** The pattern's first occurrence is replaced and the rest is kept. *)
Lemma replaceFrom_first (pat rep b : string) : forall a before : string,
  (forall a', occursAfter pat a' (a ++ pat ++ b) -> String.length a <= String.length a') ->
  replaceFrom before pat rep (a ++ pat ++ b)
  = a ++ getSubstitution pat (before ++ a) b rep ++ b.
Proof.
  induction a as [|c a IH]; intros before Hfirst.
  - cbn [append]. rewrite replaceFrom_eq, prefix_append, dropChars_append, append_nil_r.
    reflexivity.
  - rewrite replaceFrom_eq.
    destruct (String.prefix pat (String c a ++ pat ++ b)) eqn:Hp.
    + apply prefix_split in Hp as [b' Hb'].
      specialize (Hfirst "" (ex_intro _ b' Hb')). cbn in Hfirst. lia.
    + cbn [append]. rewrite IH.
      * now rewrite append_assoc.
      * intros a' [b' Hb']. apply le_S_n.
        apply (Hfirst (String c a')). exists b'. cbn [append]. now rewrite Hb'.
Qed.

(** A pattern that occurs nowhere leaves the text as it is. *)
Lemma replaceFrom_absent (pat rep : string) : forall s before : string,
  (forall a, ~ occursAfter pat a s) ->
  replaceFrom before pat rep s = s.
Proof.
  induction s as [|c s IH]; intros before Habs; rewrite replaceFrom_eq.
  - destruct (String.prefix pat "") eqn:Hp; [|reflexivity].
    apply prefix_split in Hp. exfalso. apply (Habs ""). exact Hp.
  - destruct (String.prefix pat (String c s)) eqn:Hp.
    + apply prefix_split in Hp. exfalso. apply (Habs ""). exact Hp.
    + rewrite IH; [reflexivity|].
      intros a [b Hb]. apply (Habs (String c a)). exists b. cbn [append]. now rewrite Hb.
Qed.

(** ** The stack of the timeout error *)




(** In a runtime with stacks the relocated stack names the frame of
    [waitFor] under the timeout message; in a runtime without stacks the
    timeout error has no stack and is still delivered. *)
Example relocated_stack_text :
  timeoutError withStacks optionsEightFive
    (executor withStacks (alwaysThrows VUndefined) optionsEightFive)
  = VError relocatedTimeoutError.
Proof. vm_compute. reflexivity. Qed.

Example no_stack_runtime :
  settled (fire withoutStacks (alwaysReturns aPromise) optionsNoStacks Deadline
             (executor withoutStacks (alwaysReturns aPromise) optionsNoStacks))
  = Some (Rejected (VError (mkError "Error" "Timed out in waitFor." None))).
Proof. vm_compute. reflexivity. Qed.

(** ** An [onTimeout] that returns a falsy value *)

(** C9: when the deadline fires and [onTimeout] returns a falsy value for
    the terminal error, [onDone] takes the branch of success: the promise is
    resolved with [null] and not rejected. *)
Theorem C9_falsy_onTimeout_resolves_with_null
    (rt : Runtime) (invoke : nat -> CheckResult) (opts : ImplOptions) (p : Poller) :
  reachable rt invoke opts p ->
  timeoutTimer p = true ->
  truthy (onTimeout opts (timeoutError rt opts p)) = false ->
  settled (fire rt invoke opts Deadline p) = Some (Resolved VNull) /\
  hd_error (log (fire rt invoke opts Deadline p)) = Some (CallResolve VNull) /\
  finished (fire rt invoke opts Deadline p) = true.
Proof.
  intros Hr Ht Hf.
  pose proof (timer_set_unsettled p (reachable_wf rt invoke opts p Hr) Ht) as Hn.
  cbn [fire]. rewrite Ht. repeat split.
  - rewrite (handleTimeout_settled rt opts p Hn), Hf. reflexivity.
  - rewrite handleTimeout_log, Hf. reflexivity.
  - unfold handleTimeout. apply onDone_finished.
Qed.

Lemma C9_swallowed_timeout_witness :
  settled (fire withStacks (alwaysThrows errorX) optionsSwallowTimeout Deadline
             (executor withStacks (alwaysThrows errorX) optionsSwallowTimeout))
  = Some (Resolved VNull) /\
  hd_error (log (fire withStacks (alwaysThrows errorX) optionsSwallowTimeout Deadline
                   (executor withStacks (alwaysThrows errorX) optionsSwallowTimeout)))
  = Some (CallResolve VNull) /\
  finished (fire withStacks (alwaysThrows errorX) optionsSwallowTimeout Deadline
              (executor withStacks (alwaysThrows errorX) optionsSwallowTimeout)) = true.
Proof.
  apply (C9_falsy_onTimeout_resolves_with_null withStacks (alwaysThrows errorX)
           optionsSwallowTimeout
           (executor withStacks (alwaysThrows errorX) optionsSwallowTimeout)).
  - exists []. vm_compute. reflexivity.
  - vm_compute. reflexivity.
  - vm_compute. reflexivity.
Defined.

(** ** What the check returns *)

Lemma notNull_spec (v : Value) : notNull v = true <-> v <> VNull.
Proof. destruct v; cbn; split; congruence. Qed.

Lemma isThenable_spec (v : Value) :
  isThenable v = true <->
  v <> VNull /\ typeOf v = "object" /\ typeOf (getThen v) = "function".
Proof.
  unfold isThenable. rewrite !andb_true_iff, notNull_spec, !String.eqb_eq. tauto.
Qed.

Lemma adoptsThen_not_thenable (v : Value) :
  isThenable v = false ->
  (adoptsThen v = true <->
   exists props, v = VFunction props /\ typeOf (lookup "then" props) = "function").
Proof.
  intros H. destruct v; cbn [adoptsThen getThen typeOf String.eqb];
    try (split; [discriminate | intros (props & Hv & _); discriminate Hv]).
  - unfold isThenable in H. cbn [notNull typeOf getThen andb] in H.
    rewrite String.eqb_refl in H. cbn [andb] in H. rewrite H.
    split; [discriminate | intros (q & Hv & _); discriminate Hv].
  - rewrite String.eqb_eq. split.
    + intros Ht. exists props. split; [reflexivity|exact Ht].
    + intros (q & Hv & Ht). inversion Hv; subst. exact Ht.
Qed.

(** C10, as the code has it: a value returned by the check is taken for a
    promise-like value exactly when it is not [null], its [typeof] is
    ['object'] and the [typeof] of its [then] is ['function']; handlers are
    then attached and the poller waits.  Every other value, [null], the
    primitives and the functions among them whether they carry a [then] or
    not, is passed to [onDone(null, value)] at once: the timers are cleared
    and [resolve(value)] is called.  On a poller that had not settled this
    fulfils the returned promise with the value, except for a function with
    a callable [then]: the host follows such a value, and the promise is
    locked to what that [then] produces instead of being fulfilled with the
    function.  On a poller that had settled before (a signal aborted before
    the first check) the earlier outcome stands. *)
Theorem C10_return_value_dispatch
    (invoke : nat -> CheckResult) (p : Poller) (v : Value) :
  isPending (promiseStatus p) = false ->
  invoke (calls p) = Returns v ->
  (isThenable v = true <->
   v <> VNull /\ typeOf v = "object" /\ typeOf (getThen v) = "function") /\
  (isThenable v = true ->
   promiseStatus (checkCallback invoke p) = Pending /\
   inflight (checkCallback invoke p) = S (inflight p) /\
   settled (checkCallback invoke p) = settled p /\
   promiseState (checkCallback invoke p) = promiseState p /\
   finished (checkCallback invoke p) = finished p /\
   log (checkCallback invoke p) = AttachThen :: Called (Returns v) :: log p) /\
  (isThenable v = false ->
   finished (checkCallback invoke p) = true /\
   timeoutTimer (checkCallback invoke p) = false /\
   intervalTimer (checkCallback invoke p) = false /\
   log (checkCallback invoke p)
   = CallResolve v :: ClearInterval :: ClearTimeout :: Called (Returns v) :: log p /\
   settled (checkCallback invoke p)
   = match settled p with Some o => Some o | None => Some (Resolved v) end /\
   (settled p = None ->
    promiseState (checkCallback invoke p)
    = if adoptsThen v then Following v else Fulfilled v) /\
   (settled p <> None -> promiseState (checkCallback invoke p) = promiseState p) /\
   (adoptsThen v = true <->
    exists props, v = VFunction props /\ typeOf (lookup "then" props) = "function")) /\
  isThenable VNull = false /\
  (forall props, isThenable (VFunction props) = false) /\
  (typeOf v <> "object" -> isThenable v = false).
Proof.
  intros Hp Hr.
  split; [apply isThenable_spec|].
  split; [|split].
  - intros H. unfold promiseState, checkCallback. rewrite Hp, Hr, H. repeat split.
  - intros H.
    assert (Hs : settled (checkCallback invoke p)
                 = match settled p with Some o => Some o | None => Some (Resolved v) end).
    { unfold checkCallback. rewrite Hp, Hr, H. rewrite onDone_settled. reflexivity. }
    split; [unfold checkCallback; rewrite Hp, Hr, H; apply onDone_finished|].
    split; [unfold checkCallback; rewrite Hp, Hr, H; apply onDone_timeoutTimer|].
    split; [unfold checkCallback; rewrite Hp, Hr, H; apply onDone_intervalTimer|].
    split; [unfold checkCallback; rewrite Hp, Hr, H; rewrite onDone_log; reflexivity|].
    split; [exact Hs|].
    split; [|split].
    + intros Hn. unfold promiseState. rewrite Hs, Hn. reflexivity.
    + intros Hn. unfold promiseState. rewrite Hs.
      destruct (settled p); [reflexivity|congruence].
    + now apply adoptsThen_not_thenable.
  - repeat split.
    intros Hty. destruct (isThenable v) eqn:E; [|reflexivity].
    apply isThenable_spec in E. tauto.
Qed.

Lemma C10_number_witness :
  (isThenable (VNumber 5) = true <->
   VNumber 5 <> VNull /\ typeOf (VNumber 5) = "object" /\
   typeOf (getThen (VNumber 5)) = "function") /\
  (isThenable (VNumber 5) = true ->
   promiseStatus (checkCallback (alwaysReturns (VNumber 5))
                    (beforeFirstCheck withStacks optionsEightFive)) = Pending /\
   inflight (checkCallback (alwaysReturns (VNumber 5))
               (beforeFirstCheck withStacks optionsEightFive))
   = S (inflight (beforeFirstCheck withStacks optionsEightFive)) /\
   settled (checkCallback (alwaysReturns (VNumber 5))
              (beforeFirstCheck withStacks optionsEightFive))
   = settled (beforeFirstCheck withStacks optionsEightFive) /\
   promiseState (checkCallback (alwaysReturns (VNumber 5))
                   (beforeFirstCheck withStacks optionsEightFive))
   = promiseState (beforeFirstCheck withStacks optionsEightFive) /\
   finished (checkCallback (alwaysReturns (VNumber 5))
               (beforeFirstCheck withStacks optionsEightFive))
   = finished (beforeFirstCheck withStacks optionsEightFive) /\
   log (checkCallback (alwaysReturns (VNumber 5))
          (beforeFirstCheck withStacks optionsEightFive))
   = AttachThen :: Called (Returns (VNumber 5))
       :: log (beforeFirstCheck withStacks optionsEightFive)) /\
  (isThenable (VNumber 5) = false ->
   finished (checkCallback (alwaysReturns (VNumber 5))
               (beforeFirstCheck withStacks optionsEightFive)) = true /\
   timeoutTimer (checkCallback (alwaysReturns (VNumber 5))
                   (beforeFirstCheck withStacks optionsEightFive)) = false /\
   intervalTimer (checkCallback (alwaysReturns (VNumber 5))
                    (beforeFirstCheck withStacks optionsEightFive)) = false /\
   log (checkCallback (alwaysReturns (VNumber 5))
          (beforeFirstCheck withStacks optionsEightFive))
   = CallResolve (VNumber 5) :: ClearInterval :: ClearTimeout
       :: Called (Returns (VNumber 5))
       :: log (beforeFirstCheck withStacks optionsEightFive) /\
   settled (checkCallback (alwaysReturns (VNumber 5))
              (beforeFirstCheck withStacks optionsEightFive))
   = match settled (beforeFirstCheck withStacks optionsEightFive) with
     | Some o => Some o
     | None => Some (Resolved (VNumber 5))
     end /\
   (settled (beforeFirstCheck withStacks optionsEightFive) = None ->
    promiseState (checkCallback (alwaysReturns (VNumber 5))
                    (beforeFirstCheck withStacks optionsEightFive))
    = if adoptsThen (VNumber 5) then Following (VNumber 5) else Fulfilled (VNumber 5)) /\
   (settled (beforeFirstCheck withStacks optionsEightFive) <> None ->
    promiseState (checkCallback (alwaysReturns (VNumber 5))
                    (beforeFirstCheck withStacks optionsEightFive))
    = promiseState (beforeFirstCheck withStacks optionsEightFive)) /\
   (adoptsThen (VNumber 5) = true <->
    exists props, VNumber 5 = VFunction props /\
                  typeOf (lookup "then" props) = "function")) /\
  isThenable VNull = false /\
  (forall props, isThenable (VFunction props) = false) /\
  (typeOf (VNumber 5) <> "object" -> isThenable (VNumber 5) = false).
Proof.
  apply (C10_return_value_dispatch (alwaysReturns (VNumber 5))
           (beforeFirstCheck withStacks optionsEightFive) (VNumber 5));
    vm_compute; reflexivity.
Defined.

(** A promise makes the poller wait; [null] and a number fulfil the returned
    promise at once with themselves; for a function with a [then] method
    [resolve] is called at once with it as well, and the host follows it. *)
Example dispatch_examples :
  settled (executor withStacks (alwaysReturns aPromise) optionsEightFive) = None /\
  promiseStatus (executor withStacks (alwaysReturns aPromise) optionsEightFive) = Pending /\
  promiseState (executor withStacks (alwaysReturns VNull) optionsEightFive)
  = Fulfilled VNull /\
  promiseState (executor withStacks (alwaysReturns (VNumber 5)) optionsEightFive)
  = Fulfilled (VNumber 5) /\
  settled (executor withStacks (alwaysReturns functionWithThen) optionsEightFive)
  = Some (Resolved functionWithThen) /\
  promiseState (executor withStacks (alwaysReturns functionWithThen) optionsEightFive)
  = Following functionWithThen.
Proof. vm_compute. repeat split; reflexivity. Qed.

(** C10 as stated fails in two ways.  A function that carries a [then]
    method is not promise-like for [checkCallback], which calls [resolve]
    with it at once; the host follows it, so the returned promise is locked
    to what that [then] produces and is not fulfilled with the function.
    And when the poller has settled before the check runs, as with an
    aborted signal, a check that returns the number 5 leaves the call
    rejected as aborted. *)
Lemma C10_function_with_then_counterexample :
  isThenable functionWithThen = false /\
  promiseState (executor withStacks (alwaysReturns functionWithThen) optionsEightFive)
  = Following functionWithThen /\
  promiseState (executor withStacks (alwaysReturns functionWithThen) optionsEightFive)
  <> Fulfilled functionWithThen /\
  isThenable (VNumber 5) = false /\
  option_map promiseState
    (pollerOf (waitFor withStacks aFunction (alwaysReturns (VNumber 5)) optionsAborted))
  = Some (RejectedWith (abortError withStacks AtAbortCheck "Bailing out")) /\
  option_map promiseState
    (pollerOf (waitFor withStacks aFunction (alwaysReturns (VNumber 5)) optionsAborted))
  <> Some (Fulfilled (VNumber 5)).
Proof. vm_compute. repeat split; discriminate. Qed.

(** * Further properties of [waitFor.ts] *)

(** ** Logs *)

Lemma countWhere_app (f : Effect -> bool) (a b : list Effect) :
  countWhere f (a ++ b)%list = countWhere f a + countWhere f b.
Proof.
  unfold countWhere. induction a as [|e a IH]; cbn; [reflexivity|].
  destruct (f e); cbn; now rewrite IH.
Qed.

Lemma countWhere_none (f : Effect -> bool) (l : list Effect) :
  (forall e, In e l -> f e = false) -> countWhere f l = 0.
Proof.
  unfold countWhere. induction l as [|e l IH]; intros H; cbn; [reflexivity|].
  rewrite (H e (or_introl eq_refl)). apply IH. intros e' He'. apply H. now right.
Qed.

Lemma countAdvances_countWhere (l : list Effect) :
  countAdvances l = countWhere isAdvance l.
Proof.
  unfold countWhere. induction l as [|e l IH]; [reflexivity|].
  destruct e; cbn; now rewrite IH.
Qed.

Section Logs.

Variable rt : Runtime.
Variable invoke : nat -> CheckResult.
Variable opts : ImplOptions.

(** A property that holds of the executor's result and that every event
    keeps on well-formed pollers holds of every reachable poller. *)
Lemma reachable_invariant (P : Poller -> Prop) :
  P (executor rt invoke opts) ->
  (forall ev p, WellFormed p -> P p -> P (fire rt invoke opts ev p)) ->
  forall p, reachable rt invoke opts p -> P p.
Proof.
  intros H0 Hstep p [evs ->].
  assert (H : forall evs q, WellFormed q -> P q -> P (run rt invoke opts evs q)).
  { clear evs. induction evs as [|ev evs IH]; intros q Hq HP; cbn [run]; auto.
    apply IH; [now apply fire_wf | now apply Hstep]. }
  apply H; [apply executor_wf | exact H0].
Qed.

(** What an event adds to the log. *)
Lemma fire_log_cases (ev : Event) (p : Poller) :
  exists delta,
    log (fire rt invoke opts ev p) = (delta ++ log p)%list /\
    (forall e, In e delta -> addedBy opts ev p e) /\
    countWhere isOnTimeoutCall delta <= 1.
Proof.
  destruct ev; cbn [fire].
  - destruct (intervalTimer p) eqn:Hi; [|exists []; repeat split; auto; members].
    unfold checkCallback. destruct (isPending _); [exists []; repeat split; auto; members|].
    destruct (invoke _) as [v|x]; [destruct (isThenable v)|].
    + exists [AttachThen; Called (Returns v)]. repeat split; auto; members.
    + exists [CallResolve v; ClearInterval; ClearTimeout; Called (Returns v)].
      rewrite onDone_log. repeat split; auto; members.
    + exists [Called (Throws x)]. repeat split; auto; members.
  - destruct (timeoutTimer p) eqn:Ht; [|exists []; repeat split; auto; members].
    rewrite handleTimeout_log.
    destruct (truthy _).
    + exists [CallReject (onTimeout opts (timeoutError rt opts p)); ClearInterval;
              ClearTimeout; CallOnTimeout (timeoutError rt opts p)].
      repeat split; auto; members.
    + exists [CallResolve VNull; ClearInterval; ClearTimeout;
              CallOnTimeout (timeoutError rt opts p)].
      repeat split; auto; members.
  - destruct (sig p) as [s|]; [|exists []; repeat split; auto; members].
    destruct (aborted s); [exists []; repeat split; auto; members|].
    change (abortListener (setSig (Some (mkSignal true why)) p))
      with (abortListener p).
    destruct (abortListener p); [|exists []; repeat split; auto; members].
    unfold onAbort. rewrite onDone_log, truthy_abortError.
    exists [CallReject (abortError rt AtAbortListener why); ClearInterval; ClearTimeout].
    repeat split; auto; members.
  - destruct (inflight p); [exists []; repeat split; auto; members|].
    unfold onFulfilled. rewrite onDone_log.
    exists [CallResolve v; ClearInterval; ClearTimeout; DeferredFulfilled v].
    repeat split; auto; members.
  - destruct (inflight p); [exists []; repeat split; auto; members|].
    exists [DeferredRejected e]. repeat split; auto; members.
  - unfold pump. destruct (clock opts) eqn:Hc; [|exists []; repeat split; auto; members].
    destruct (loopCondition p) eqn:Hl; [|exists []; repeat split; auto; members].
    exists [AdvanceTimers (interval opts)]. repeat split; auto; members.
Qed.

End Logs.

(** ** What the executor has logged *)

Section ExecutorLog.

Variable rt : Runtime.
Variable invoke : nat -> CheckResult.
Variable opts : ImplOptions.

Lemma beforeFirstCheck_log :
  exists pre,
    log (beforeFirstCheck rt opts)
    = (pre ++ [SetInterval (interval opts); SetTimeout (timeout opts)])%list /\
    countWhere isTimerStart pre = 0 /\
    countWhere isOnTimeoutCall pre = 0 /\
    countWhere isAdvance pre = 0 /\
    countWhere isListenerAdded pre = (if hasSignal opts then 1 else 0) /\
    (forall arg, ~ In (CallOnTimeout arg) pre).
Proof.
  unfold beforeFirstCheck, hasSignal, fresh. cbv zeta.
  destruct (signal opts) as [s|]; [destruct (aborted s)|].
  - exists [AddAbortListener; CallReject (abortError rt AtAbortCheck (reason s));
            ClearInterval; ClearTimeout].
    unfold addEventListener. cbn [log setAbortListener emit].
    rewrite onDone_log, truthy_abortError.
    repeat split; try reflexivity.
    intros arg Hin. cbn [In] in Hin. intuition discriminate.
  - exists [AddAbortListener]. repeat split; try reflexivity.
    intros arg Hin. cbn [In] in Hin. intuition discriminate.
  - exists []. repeat split; try reflexivity. intros arg [].
Qed.

(** What the first check and the first turn of the clock loop add. *)
Lemma executor_log_cases :
  exists delta,
    log (executor rt invoke opts)
    = (delta ++ log (beforeFirstCheck rt opts))%list /\
    countWhere isTimerStart delta = 0 /\
    countWhere isOnTimeoutCall delta = 0 /\
    countWhere isListenerAdded delta = 0 /\
    (forall arg, ~ In (CallOnTimeout arg) delta) /\
    (forall ms, In (AdvanceTimers ms) delta -> clock opts = true /\ ms = interval opts).
Proof.
  assert (Hc : exists d,
    log (checkCallback invoke (beforeFirstCheck rt opts))
    = (d ++ log (beforeFirstCheck rt opts))%list /\
    countWhere isTimerStart d = 0 /\ countWhere isOnTimeoutCall d = 0 /\
    countWhere isListenerAdded d = 0 /\
    (forall arg, ~ In (CallOnTimeout arg) d) /\
    (forall ms, ~ In (AdvanceTimers ms) d)).
  { unfold checkCallback. destruct (isPending _).
    - exists []. repeat split; try reflexivity; intros ? [].
    - destruct (invoke _) as [v|x]; [destruct (isThenable v)|].
      + exists [AttachThen; Called (Returns v)].
        repeat split; try reflexivity; intros ? Hin; cbn [In] in Hin;
          intuition discriminate.
      + exists [CallResolve v; ClearInterval; ClearTimeout; Called (Returns v)].
        rewrite onDone_log.
        repeat split; try reflexivity; intros ? Hin; cbn [In] in Hin;
          intuition discriminate.
      + exists [Called (Throws x)].
        repeat split; try reflexivity; intros ? Hin; cbn [In] in Hin;
          intuition discriminate. }
  destruct Hc as (d & Hd & H1 & H2 & H3 & H4 & H5).
  unfold executor. cbv zeta. unfold pump.
  destruct (clock opts) eqn:Hclock; cbn [andb].
  - destruct (loopCondition _).
    + exists (AdvanceTimers (interval opts) :: d). cbn [log emit]. rewrite Hd.
      split; [reflexivity|]. repeat (split; [assumption|]). split.
      * intros arg [Heq|Hin]; [discriminate|]. now apply (H4 arg).
      * intros ms [Heq|Hin]; [split; congruence|]. now apply H5 in Hin.
    + exists d. split; [exact Hd|]. repeat (split; [assumption|]).
      intros ms Hin. now apply H5 in Hin.
  - exists d. split; [exact Hd|]. repeat (split; [assumption|]).
    intros ms Hin. now apply H5 in Hin.
Qed.

End ExecutorLog.

(** ** Resources *)

Section Resources.

Variable rt : Runtime.
Variable invoke : nat -> CheckResult.
Variable opts : ImplOptions.

Lemma fire_finished_mono (ev : Event) (p : Poller) :
  finished p = true -> finished (fire rt invoke opts ev p) = true.
Proof.
  intros H. destruct ev; cbn [fire].
  - destruct (intervalTimer p); auto. unfold checkCallback.
    destruct (isPending _); auto.
    destruct (invoke _) as [v|x]; [destruct (isThenable v)|]; auto.
    apply onDone_finished.
  - destruct (timeoutTimer p); auto. apply onDone_finished.
  - destruct (sig p) as [s|]; auto. destruct (aborted s); auto.
    destruct (abortListener _); auto. apply onDone_finished.
  - destruct (inflight p); auto. apply onDone_finished.
  - destruct (inflight p); auto.
  - unfold pump. destruct (_ && _); auto.
Qed.

Lemma run_finished_mono (evs : list Event) : forall p : Poller,
  finished p = true -> finished (run rt invoke opts evs p) = true.
Proof.
  induction evs as [|ev evs IH]; intros p H; cbn [run]; auto using fire_finished_mono.
Qed.

Lemma reachable_timers_started (p : Poller) :
  reachable rt invoke opts p ->
  exists later,
    log p = (later ++ [SetInterval (interval opts); SetTimeout (timeout opts)])%list /\
    countWhere isTimerStart later = 0 /\
    countWhere isListenerAdded later = (if hasSignal opts then 1 else 0).
Proof.
  intros Hr. pattern p. revert p Hr.
  apply (reachable_invariant rt invoke opts); cbv beta.
  - destruct (executor_log_cases rt invoke opts) as (d & Hd & H1 & _ & H3 & _).
    destruct (beforeFirstCheck_log rt opts) as (pre & Hpre & P1 & _ & _ & P4 & _).
    exists (d ++ pre)%list. rewrite Hd, Hpre, app_assoc, !countWhere_app, H1, H3, P1, P4.
    repeat split; reflexivity.
  - intros ev p _ (later & Hl & H1 & H2).
    destruct (fire_log_cases rt invoke opts ev p) as (delta & Hd & Hin & _).
    exists (delta ++ later)%list.
    rewrite Hd, Hl, app_assoc, !countWhere_app, H1, H2.
    assert (Z1 : countWhere isTimerStart delta = 0).
    { apply countWhere_none. intros e He. specialize (Hin e He).
      destruct e; cbn in *; auto; contradiction. }
    assert (Z2 : countWhere isListenerAdded delta = 0).
    { apply countWhere_none. intros e He. specialize (Hin e He).
      destruct e; cbn in *; auto; contradiction. }
    rewrite Z1, Z2. repeat split; reflexivity.
Qed.



End Resources.

(** X1: a call of [waitFor] with a function starts its two timers once, the
    deadline first and then the interval, with the delays given or 1000 ms
    and 50 ms by default; no event that follows starts a timer again, and
    the abort listener is attached once when a signal was passed and never
    otherwise. *)
Theorem X1_timers_started_once
    (rt : Runtime) (callback : Value) (invoke : nat -> CheckResult)
    (options : WaitForOptions) (evs : list Event) :
  typeOf callback = "function" ->
  exists p later,
    waitFor rt callback invoke options = Returned p /\
    log (run rt invoke
           (withDefaults (newError STACK_TRACE_MESSAGE (rt AtWaitFor STACK_TRACE_MESSAGE))
              options) evs p)
    = (later ++ [SetInterval (orDefault (optInterval options) 50%Z);
                 SetTimeout (orDefault (optTimeout options) 1000%Z)])%list /\
    countWhere isTimerStart later = 0 /\
    countWhere isListenerAdded later
    = match optSignal options with Some _ => 1 | None => 0 end.
Proof.
  intros Hf.
  set (opts := withDefaults (newError STACK_TRACE_MESSAGE (rt AtWaitFor STACK_TRACE_MESSAGE))
                 options).
  destruct (reachable_timers_started rt invoke opts
              (run rt invoke opts evs (executor rt invoke opts)))
    as (later & Hl & H1 & H2); [now exists evs|].
  exists (executor rt invoke opts), later.
  split; [unfold waitFor, waitForImpl; now rewrite Hf|].
  split; [exact Hl|]. split; [exact H1|].
  rewrite H2. unfold hasSignal, opts. cbn [signal withDefaults].
  destruct (optSignal options); reflexivity.
Qed.

Lemma X1_timers_started_once_witness :
  exists p later,
    waitFor withStacks aFunction (alwaysThrows errorX) optionsLive = Returned p /\
    log (run withStacks (alwaysThrows errorX)
           (withDefaults (newError STACK_TRACE_MESSAGE
                            (withStacks AtWaitFor STACK_TRACE_MESSAGE)) optionsLive)
           [Tick; Tick; Deadline; Tick] p)
    = (later ++ [SetInterval (orDefault (optInterval optionsLive) 50%Z);
                 SetTimeout (orDefault (optTimeout optionsLive) 1000%Z)])%list /\
    countWhere isTimerStart later = 0 /\
    countWhere isListenerAdded later
    = match optSignal optionsLive with Some _ => 1 | None => 0 end.
Proof.
  apply (X1_timers_started_once withStacks aFunction (alwaysThrows errorX) optionsLive
           [Tick; Tick; Deadline; Tick]).
  reflexivity.
Defined.




(** One call of [onTimeout] after the deadline, none before it. *)
Example onTimeout_count_around_deadline :
  countWhere isOnTimeoutCall (log pumpedPoller) = 0 /\
  countWhere isOnTimeoutCall (log timedOutPoller) = 1.
Proof. vm_compute. split; reflexivity. Qed.

(** ** The clock loop *)

Section ClockLoop.

Variable rt : Runtime.
Variable invoke : nat -> CheckResult.
Variable opts : ImplOptions.

Lemma reachable_advances (p : Poller) :
  reachable rt invoke opts p ->
  forall ms, In (AdvanceTimers ms) (log p) -> clock opts = true /\ ms = interval opts.
Proof.
  intros Hr. pattern p. revert p Hr.
  apply (reachable_invariant rt invoke opts); cbv beta.
  - intros ms Hin.
    destruct (executor_log_cases rt invoke opts) as (d & Hd & _ & _ & _ & _ & Ha).
    destruct (beforeFirstCheck_log rt opts) as (pre & Hpre & _ & _ & P3 & _).
    rewrite Hd, Hpre in Hin. apply in_app_or in Hin as [Hin|Hin]; [now apply Ha|].
    apply in_app_or in Hin as [Hin|Hin].
    + exfalso. revert P3. apply (in_split (AdvanceTimers ms)) in Hin
        as (l1 & l2 & ->). rewrite countWhere_app. unfold countWhere at 2. cbn. lia.
    + cbn [In] in Hin. intuition discriminate.
  - intros ev p _ IH ms Hin.
    destruct (fire_log_cases rt invoke opts ev p) as (delta & Hd & Hadd & _).
    rewrite Hd in Hin. apply in_app_or in Hin as [Hin|Hin]; [|now apply IH].
    specialize (Hadd _ Hin). cbn [addedBy] in Hadd. tauto.
Qed.

Lemma fire_no_advance_when_finished (ev : Event) (p : Poller) :
  finished p = true ->
  countAdvances (log (fire rt invoke opts ev p)) = countAdvances (log p).
Proof.
  intros Hfin.
  destruct (fire_log_cases rt invoke opts ev p) as (delta & Hd & Hadd & _).
  rewrite Hd, !countAdvances_countWhere, countWhere_app.
  rewrite (countWhere_none isAdvance delta); [reflexivity|].
  intros e He. specialize (Hadd e He). destruct e; auto.
  cbn [addedBy] in Hadd. destruct Hadd as (_ & _ & Hl & _).
  unfold loopCondition in Hl. rewrite Hfin in Hl. discriminate.
Qed.

End ClockLoop.

(** X3: the poller advances the timers by itself only when a clock was
    passed, and then always by [interval]: every call of
    [clock.advanceTimersByTime] in the log of a reachable poller has the
    interval as its argument, and without a clock there is none. *)
Theorem X3_clock_advanced_by_interval_only
    (rt : Runtime) (invoke : nat -> CheckResult) (opts : ImplOptions) (p : Poller) :
  reachable rt invoke opts p ->
  (forall ms, In (AdvanceTimers ms) (log p) -> clock opts = true /\ ms = interval opts) /\
  (clock opts = false -> countAdvances (log p) = 0).
Proof.
  intros Hr. pose proof (reachable_advances rt invoke opts p Hr) as H.
  split; [exact H|]. intros Hc.
  rewrite countAdvances_countWhere. apply countWhere_none.
  intros e He. destruct e; auto. apply H in He. destruct He. congruence.
Qed.

(** X4: once the poller has settled, the clock loop stops: whatever events
    follow, [clock.advanceTimersByTime] is not called again. *)
Theorem X4_clock_stops_at_settlement
    (rt : Runtime) (invoke : nat -> CheckResult) (opts : ImplOptions)
    (p : Poller) (o : Outcome) (evs : list Event) :
  reachable rt invoke opts p ->
  settled p = Some o ->
  countAdvances (log (run rt invoke opts evs p)) = countAdvances (log p) /\
  loopCondition (run rt invoke opts evs p) = false.
Proof.
  intros Hr Ho.
  destruct (settled_timers_cleared p o (reachable_wf rt invoke opts p Hr) Ho) as (Hfin & _).
  clear Hr Ho. revert p Hfin.
  induction evs as [|ev evs IH]; intros p Hfin; cbn [run].
  - split; [reflexivity|]. unfold loopCondition. now rewrite Hfin.
  - destruct (IH _ (fire_finished_mono rt invoke opts ev p Hfin)) as [H1 H2].
    split; [|exact H2]. rewrite H1. now apply fire_no_advance_when_finished.
Qed.

Lemma X3_clock_witness :
  (forall ms, In (AdvanceTimers ms) (log pumpedPoller) ->
              clock implOptionsWithClock = true /\ ms = interval implOptionsWithClock) /\
  (clock implOptionsWithClock = false -> countAdvances (log pumpedPoller) = 0).
Proof.
  apply (X3_clock_advanced_by_interval_only withStacks (alwaysThrows errorX)
           implOptionsWithClock pumpedPoller).
  exists [Resume; Tick; Resume]. reflexivity.
Defined.

Lemma X4_clock_witness :
  countAdvances (log (run withStacks (alwaysThrows errorX) implOptionsWithClock
                        [Resume; Tick; Resume] timedOutPoller))
  = countAdvances (log timedOutPoller) /\
  loopCondition (run withStacks (alwaysThrows errorX) implOptionsWithClock
                   [Resume; Tick; Resume] timedOutPoller) = false.
Proof.
  apply (X4_clock_stops_at_settlement withStacks (alwaysThrows errorX)
           implOptionsWithClock timedOutPoller (Rejected errorX) [Resume; Tick; Resume]).
  - exists [Resume; Tick; Resume; Deadline]. reflexivity.
  - vm_compute. reflexivity.
Defined.

(** With a clock, the loop of [pumpedPoller] has advanced the timers three
    times by 50 ms: once in the call and once at each resumption. *)
Example pumped_three_times :
  countAdvances (log pumpedPoller) = 3 /\
  countAdvances (log timedOutPoller) = 3.
Proof. vm_compute. split; reflexivity. Qed.

(** ** Abort, fulfilment and the number of invocations *)

Section Events.

Variable rt : Runtime.
Variable invoke : nat -> CheckResult.
Variable opts : ImplOptions.

Lemma checkCallback_sig (p : Poller) : sig (checkCallback invoke p) = sig p.
Proof.
  unfold checkCallback. destruct (isPending _); auto.
  destruct (invoke _) as [v|x]; [destruct (isThenable v)|]; auto.
  now rewrite onDone_sig.
Qed.

(** The poller holds a signal exactly when one was passed. *)
Lemma reachable_sig (p : Poller) :
  reachable rt invoke opts p ->
  match sig p with Some _ => true | None => false end = hasSignal opts.
Proof.
  intros Hr. pattern p. revert p Hr.
  apply (reachable_invariant rt invoke opts); cbv beta.
  - destruct (beforeFirstCheck_fields rt opts) as (_ & _ & _ & _ & Hs & _).
    assert (H : sig (executor rt invoke opts) = signal opts).
    { unfold executor. cbv zeta. unfold pump.
      destruct (clock opts); [destruct (_ && _)|]; cbn [sig emit];
        rewrite checkCallback_sig; exact Hs. }
    rewrite H. reflexivity.
  - intros ev p _ IH. destruct ev; cbn [fire].
    + destruct (intervalTimer p); [rewrite checkCallback_sig|]; exact IH.
    + destruct (timeoutTimer p); [unfold handleTimeout; rewrite onDone_sig|]; exact IH.
    + destruct (sig p) as [s|] eqn:Hs; [|rewrite Hs; exact IH].
      destruct (aborted s); [rewrite Hs; exact IH|].
      destruct (abortListener _); [unfold onAbort; rewrite onDone_sig|]; exact IH.
    + destruct (inflight p); [|unfold onFulfilled; rewrite onDone_sig]; exact IH.
    + destruct (inflight p); exact IH.
    + unfold pump. destruct (_ && _); exact IH.
Qed.



End Events.

(** X5: when the signal is aborted while the poller is undecided, the
    listener rejects the promise with the error "Aborted: <reason>" and
    clears both timers, whether a promise of the check is outstanding or
    not; the check is not invoked again and nothing that follows, the late
    settlement of that promise included, changes the rejection. *)
Theorem X5_abort_rejects_undecided_poller
    (rt : Runtime) (invoke : nat -> CheckResult) (opts : ImplOptions)
    (p : Poller) (s : Signal) (why : string) :
  reachable rt invoke opts p ->
  settled p = None ->
  sig p = Some s ->
  aborted s = false ->
  settled (fire rt invoke opts (Abort why) p)
  = Some (Rejected (VError (mkError "Error" ("Aborted: " ++ why)
                              (rt AtAbortListener ("Aborted: " ++ why))))) /\
  timeoutTimer (fire rt invoke opts (Abort why) p) = false /\
  intervalTimer (fire rt invoke opts (Abort why) p) = false /\
  forall evs,
    settled (run rt invoke opts evs (fire rt invoke opts (Abort why) p))
    = Some (Rejected (abortError rt AtAbortListener why)) /\
    calls (run rt invoke opts evs (fire rt invoke opts (Abort why) p)) = calls p.
Proof.
  intros Hr Hn Hs Ha.
  assert (Hl : abortListener p = true).
  { rewrite (reachable_listener rt invoke opts p Hr).
    rewrite <- (reachable_sig rt invoke opts p Hr), Hs. reflexivity. }
  assert (Hq : fire rt invoke opts (Abort why) p
               = onAbort rt why (setSig (Some (mkSignal true why)) p)).
  { cbn [fire]. rewrite Hs, Ha.
    change (abortListener (setSig (Some (mkSignal true why)) p)) with (abortListener p).
    now rewrite Hl. }
  rewrite Hq. unfold onAbort.
  assert (Hset : settled (onDone (abortError rt AtAbortListener why) VNull
                            (setSig (Some (mkSignal true why)) p))
                 = Some (Rejected (abortError rt AtAbortListener why))).
  { rewrite onDone_settled. cbn [settled setSig]. now rewrite Hn, truthy_abortError. }
  split; [exact Hset|]. split; [apply onDone_timeoutTimer|].
  split; [apply onDone_intervalTimer|].
  intros evs. split; [now apply run_keeps|].
  destruct (run_interval_off rt invoke opts evs _
              (onDone_intervalTimer (abortError rt AtAbortListener why) VNull
                 (setSig (Some (mkSignal true why)) p))) as [_ H].
  rewrite H, onDone_calls. reflexivity.
Qed.

Lemma X5_abort_witness :
  settled (fire withStacks (alwaysThrows errorX) implOptionsLive (Abort "Bailing out")
             waitingWithSignal)
  = Some (Rejected (VError (mkError "Error" ("Aborted: " ++ "Bailing out")
                              (withStacks AtAbortListener ("Aborted: " ++ "Bailing out"))))) /\
  timeoutTimer (fire withStacks (alwaysThrows errorX) implOptionsLive (Abort "Bailing out")
                  waitingWithSignal) = false /\
  intervalTimer (fire withStacks (alwaysThrows errorX) implOptionsLive (Abort "Bailing out")
                   waitingWithSignal) = false /\
  forall evs,
    settled (run withStacks (alwaysThrows errorX) implOptionsLive evs
               (fire withStacks (alwaysThrows errorX) implOptionsLive (Abort "Bailing out")
                  waitingWithSignal))
    = Some (Rejected (abortError withStacks AtAbortListener "Bailing out")) /\
    calls (run withStacks (alwaysThrows errorX) implOptionsLive evs
             (fire withStacks (alwaysThrows errorX) implOptionsLive (Abort "Bailing out")
                waitingWithSignal)) = calls waitingWithSignal.
Proof.
  apply (X5_abort_rejects_undecided_poller withStacks (alwaysThrows errorX) implOptionsLive
           waitingWithSignal liveSignal "Bailing out").
  - exists [Tick]. reflexivity.
  - vm_compute. reflexivity.
  - vm_compute. reflexivity.
  - reflexivity.
Defined.

(** The test "can be aborted with an AbortSignal": the initial check, one
    tick, then the abort; the check has been invoked twice. *)
Example aborted_after_one_ping :
  calls (fire withStacks (alwaysThrows errorX) implOptionsLive (Abort "Bailing out")
           waitingWithSignal) = 2.
Proof. vm_compute. reflexivity. Qed.

(** X6: when a promise returned by the check is fulfilled while the poller
    is undecided, the poller resolves with the fulfilment value, whatever
    that value is (a falsy value or an [Error] included), clears both
    timers and does not invoke the check again. *)
Theorem X6_fulfilment_resolves_with_value
    (rt : Runtime) (invoke : nat -> CheckResult) (opts : ImplOptions)
    (p : Poller) (v : Value) :
  reachable rt invoke opts p ->
  settled p = None ->
  promiseStatus p = Pending ->
  settled (fire rt invoke opts (Fulfil v) p) = Some (Resolved v) /\
  promiseStatus (fire rt invoke opts (Fulfil v) p) = StatusResolved /\
  timeoutTimer (fire rt invoke opts (Fulfil v) p) = false /\
  intervalTimer (fire rt invoke opts (Fulfil v) p) = false /\
  inflight (fire rt invoke opts (Fulfil v) p) = 0 /\
  forall evs,
    calls (run rt invoke opts evs (fire rt invoke opts (Fulfil v) p)) = calls p.
Proof.
  intros Hr Hn Hp.
  pose proof (reachable_wf rt invoke opts p Hr) as [_ _ _ Hin _ _].
  rewrite Hp in Hin. cbn [isPending] in Hin.
  assert (Hq : fire rt invoke opts (Fulfil v) p
               = onFulfilled v (emit (DeferredFulfilled v) (setInflight 0 p))).
  { cbn [fire]. now rewrite Hin. }
  rewrite Hq. unfold onFulfilled.
  rewrite onDone_settled, onDone_promiseStatus, onDone_timeoutTimer,
    onDone_intervalTimer, onDone_inflight.
  cbn [settled promiseStatus inflight emit setInflight setPromiseStatus truthy].
  rewrite Hn. repeat split.
  intros evs.
  destruct (run_interval_off rt invoke opts evs _
              (onDone_intervalTimer VNull v
                 (setPromiseStatus StatusResolved
                    (emit (DeferredFulfilled v) (setInflight 0 p))))) as [_ H].
  rewrite H, onDone_calls. reflexivity.
Qed.

Lemma X6_fulfilment_witness :
  settled (fire withStacks (alwaysReturns aPromise) optionsEightFive (Fulfil errorX)
             waitingForPromise) = Some (Resolved errorX) /\
  promiseStatus (fire withStacks (alwaysReturns aPromise) optionsEightFive (Fulfil errorX)
                   waitingForPromise) = StatusResolved /\
  timeoutTimer (fire withStacks (alwaysReturns aPromise) optionsEightFive (Fulfil errorX)
                  waitingForPromise) = false /\
  intervalTimer (fire withStacks (alwaysReturns aPromise) optionsEightFive (Fulfil errorX)
                   waitingForPromise) = false /\
  inflight (fire withStacks (alwaysReturns aPromise) optionsEightFive (Fulfil errorX)
              waitingForPromise) = 0 /\
  forall evs,
    calls (run withStacks (alwaysReturns aPromise) optionsEightFive evs
             (fire withStacks (alwaysReturns aPromise) optionsEightFive (Fulfil errorX)
                waitingForPromise)) = calls waitingForPromise.
Proof.
  apply (X6_fulfilment_resolves_with_value withStacks (alwaysReturns aPromise)
           optionsEightFive waitingForPromise errorX).
  - exists [Tick]. reflexivity.
  - vm_compute. reflexivity.
  - vm_compute. reflexivity.
Defined.


(** ** Polling until the check passes *)

Section Polling.

Variable rt : Runtime.
Variable invoke : nat -> CheckResult.
Variable opts : ImplOptions.

Lemma run_app (a b : list Event) : forall p : Poller,
  run rt invoke opts (a ++ b) p = run rt invoke opts b (run rt invoke opts a p).
Proof. induction a as [|ev a IH]; intros p; cbn [run app]; auto. Qed.

Lemma unsettled_interval_set (p : Poller) :
  WellFormed p -> settled p = None -> intervalTimer p = true.
Proof.
  intros [_ Hi Hf _ _ _] Hn. unfold isSettled in Hf. rewrite Hn in Hf.
  now rewrite Hi, Hf.
Qed.

Lemma executor_promiseStatus :
  promiseStatus (executor rt invoke opts)
  = promiseStatus (checkCallback invoke (beforeFirstCheck rt opts)).
Proof.
  unfold executor. cbv zeta. unfold pump.
  destruct (clock opts); [destruct (_ && _)|]; reflexivity.
Qed.

(** While every invocation so far has thrown, the poller keeps waiting. *)
Lemma still_polling (j : nat) :
  (forall s, signal opts = Some s -> aborted s = false) ->
  (forall k, k <= j -> exists e, invoke k = Throws e) ->
  settled (run rt invoke opts (repeat Tick j) (executor rt invoke opts)) = None /\
  calls (run rt invoke opts (repeat Tick j) (executor rt invoke opts)) = S j /\
  isPending (promiseStatus (run rt invoke opts (repeat Tick j) (executor rt invoke opts)))
  = false.
Proof.
  intros Hsig. induction j as [|j IH]; intros Hthrows.
  - cbn [repeat run]. destruct (Hthrows 0 (le_n 0)) as [e He].
    destruct (beforeFirstCheck_fields rt opts) as (_ & Hst & Hc & _).
    repeat split.
    + rewrite executor_settled, firstCheck_settled, He. unfold presettled.
      destruct (signal opts) as [s|]; [|reflexivity]. now rewrite (Hsig s eq_refl).
    + apply executor_calls.
    + rewrite executor_promiseStatus. unfold checkCallback.
      rewrite Hst, Hc, He. cbn [isPending promiseStatus setLastError emit setCalls].
      now rewrite Hst.
  - destruct IH as (Hn & Hc & Hp); [intros k Hk; apply Hthrows; lia|].
    change (repeat Tick (S j)) with (Tick :: repeat Tick j).
    rewrite repeat_cons.
    rewrite run_app. cbn [run fire].
    set (q := run rt invoke opts (repeat Tick j) (executor rt invoke opts)) in *.
    assert (Hwf : WellFormed q) by (apply run_wf, executor_wf).
    rewrite (unsettled_interval_set q Hwf Hn).
    destruct (Hthrows (S j) (le_n _)) as [e He].
    unfold checkCallback. rewrite Hp, Hc, He.
    cbn [settled calls promiseStatus setLastError emit setCalls].
    repeat split; assumption.
Qed.

End Polling.

(** X8: a check that throws at its first [n] invocations and then returns a
    value that is not promise-like is polled to success: with no signal
    aborted at the start, after [n] firings of the interval timer the poller
    is resolved with that value, the check has been invoked exactly [n + 1]
    times and both timers are cleared. *)
Theorem X8_polled_until_check_passes
    (rt : Runtime) (invoke : nat -> CheckResult) (opts : ImplOptions)
    (n : nat) (v : Value) :
  (forall s, signal opts = Some s -> aborted s = false) ->
  (forall k, k < n -> exists e, invoke k = Throws e) ->
  invoke n = Returns v ->
  isThenable v = false ->
  settled (run rt invoke opts (repeat Tick n) (executor rt invoke opts))
  = Some (Resolved v) /\
  calls (run rt invoke opts (repeat Tick n) (executor rt invoke opts)) = S n /\
  timeoutTimer (run rt invoke opts (repeat Tick n) (executor rt invoke opts)) = false /\
  intervalTimer (run rt invoke opts (repeat Tick n) (executor rt invoke opts)) = false.
Proof.
  intros Hsig Hthrows Hret Hplain.
  assert (H : settled (run rt invoke opts (repeat Tick n) (executor rt invoke opts))
              = Some (Resolved v) /\
              calls (run rt invoke opts (repeat Tick n) (executor rt invoke opts)) = S n).
  { destruct n as [|m].
    - cbn [repeat run]. split; [|apply executor_calls].
      rewrite executor_settled, firstCheck_settled, Hret, Hplain. unfold presettled.
      destruct (signal opts) as [s|]; [|reflexivity]. now rewrite (Hsig s eq_refl).
    - destruct (still_polling rt invoke opts m Hsig) as (Hn & Hc & Hp);
        [intros k Hk; apply Hthrows; lia|].
      change (repeat Tick (S m)) with (Tick :: repeat Tick m).
      rewrite repeat_cons, run_app. cbn [run fire].
      set (q := run rt invoke opts (repeat Tick m) (executor rt invoke opts)) in *.
      assert (Hwf : WellFormed q) by (apply run_wf, executor_wf).
      rewrite (unsettled_interval_set q Hwf Hn).
      unfold checkCallback. rewrite Hp, Hc, Hret, Hplain.
      rewrite onDone_settled, onDone_calls.
      cbn [settled calls emit setCalls truthy]. rewrite Hn. split; reflexivity. }
  destruct H as [Hs Hc]. split; [exact Hs|]. split; [exact Hc|].
  assert (Hwf : WellFormed (run rt invoke opts (repeat Tick n) (executor rt invoke opts)))
    by (apply run_wf, executor_wf).
  destruct (settled_timers_cleared _ _ Hwf Hs) as (_ & Ht & Hi). split; assumption.
Qed.

Lemma X8_done_at_third_witness :
  settled (run withStacks doneAtThird optionsEightFive (repeat Tick 2)
             (executor withStacks doneAtThird optionsEightFive))
  = Some (Resolved (VString "Done")) /\
  calls (run withStacks doneAtThird optionsEightFive (repeat Tick 2)
           (executor withStacks doneAtThird optionsEightFive)) = 3 /\
  timeoutTimer (run withStacks doneAtThird optionsEightFive (repeat Tick 2)
                  (executor withStacks doneAtThird optionsEightFive)) = false /\
  intervalTimer (run withStacks doneAtThird optionsEightFive (repeat Tick 2)
                   (executor withStacks doneAtThird optionsEightFive)) = false.
Proof.
  apply (X8_polled_until_check_passes withStacks doneAtThird optionsEightFive 2
           (VString "Done")).
  - intros s Hs. vm_compute in Hs. discriminate Hs.
  - intros k Hk. exists notDone.
    destruct k as [|[|k]]; [reflexivity | reflexivity | lia].
  - reflexivity.
  - reflexivity.
Defined.

(** ** Where an outcome comes from *)

Section Provenance.

Variable rt : Runtime.
Variable invoke : nat -> CheckResult.
Variable opts : ImplOptions.

(** The outcomes the code can produce, read in the log: a rejection is what
    [onTimeout] returned, truthy, or an abort error; a resolution is a value
    the check returned, a value a promise of the check was fulfilled with,
    or [null] after a falsy result of [onTimeout]. *)
Lemma outcome_in_log (p : Poller) :
  reachable rt invoke opts p ->
  forall o, settled p = Some o ->
  match o with
  | Rejected x =>
      (exists arg, In (CallOnTimeout arg) (log p) /\
                   x = onTimeout opts arg /\ truthy x = true) \/
      (exists site why, x = abortError rt site why)
  | Resolved v =>
      In (Called (Returns v)) (log p) \/
      In (DeferredFulfilled v) (log p) \/
      (v = VNull /\
       exists arg, In (CallOnTimeout arg) (log p) /\ truthy (onTimeout opts arg) = false)
  end.
Proof.
  intros Hr. pattern p. revert p Hr.
  apply (reachable_invariant rt invoke opts); cbv beta.
  - intros o Ho. rewrite executor_settled, firstCheck_settled in Ho.
    unfold presettled in Ho.
    destruct (signal opts) as [s|] eqn:Hs; [destruct (aborted s) eqn:Ha|].
    + inversion Ho. right. eauto.
    + destruct (invoke 0) as [v|x] eqn:Hi; [destruct (isThenable v) eqn:Hv|];
        try discriminate. inversion Ho. left.
      destruct (executor_log_cases rt invoke opts) as (d & Hd & _).
      assert (Hin : In (Called (Returns v))
                      (log (checkCallback invoke (beforeFirstCheck rt opts)))).
      { destruct (beforeFirstCheck_fields rt opts) as (_ & Hst & Hc & _).
        unfold checkCallback. rewrite Hst, Hc, Hi, Hv. cbn [isPending].
        rewrite onDone_log. cbn [In log emit]. auto. }
      unfold executor. cbv zeta. unfold pump.
      destruct (clock opts); [destruct (_ && _)|]; cbn [log emit In]; auto.
    + destruct (invoke 0) as [v|x] eqn:Hi; [destruct (isThenable v) eqn:Hv|];
        try discriminate. inversion Ho. left.
      assert (Hin : In (Called (Returns v))
                      (log (checkCallback invoke (beforeFirstCheck rt opts)))).
      { destruct (beforeFirstCheck_fields rt opts) as (_ & Hst & Hc & _).
        unfold checkCallback. rewrite Hst, Hc, Hi, Hv. cbn [isPending].
        rewrite onDone_log. cbn [In log emit]. auto. }
      unfold executor. cbv zeta. unfold pump.
      destruct (clock opts); [destruct (_ && _)|]; cbn [log emit In]; auto.
  - intros ev p Hwf IH o Ho.
    destruct (fire_log_cases rt invoke opts ev p) as (delta & Hd & _).
    assert (Hgrow : forall e, In e (log p) -> In e (log (fire rt invoke opts ev p))).
    { intros e He. rewrite Hd. apply in_or_app. now right. }
    destruct (settled p) as [o'|] eqn:Hsp.
    + rewrite (fire_keeps rt invoke opts ev p o' Hsp) in Ho. inversion Ho; subst o'.
      specialize (IH o eq_refl). destruct o as [v|x].
      * destruct IH as [H|[H|(Hv & arg & H & Hf)]]; auto.
        right. right. split; [exact Hv|]. exists arg. auto.
      * destruct IH as [(arg & H & Hx & Hf)|H]; [left; exists arg; auto|now right].
    + clear IH Hgrow Hd delta. destruct ev; cbn [fire] in *.
      * destruct (intervalTimer p); [|congruence]. unfold checkCallback in *.
        destruct (isPending _); [congruence|].
        destruct (invoke _) as [v|x]; [destruct (isThenable v)|];
          cbn [settled emit setCalls setPromiseStatus setInflight setLastError] in Ho;
          try congruence.
        rewrite onDone_settled in Ho. cbn [settled emit setCalls truthy] in Ho.
        rewrite Hsp in Ho. inversion Ho. left. rewrite onDone_log.
        cbn [In log emit truthy]. auto.
      * destruct (timeoutTimer p); [|congruence].
        rewrite (handleTimeout_settled rt opts p Hsp) in Ho. rewrite handleTimeout_log.
        destruct (truthy (onTimeout opts (timeoutError rt opts p))) eqn:Ht;
          inversion Ho; subst.
        -- left. exists (timeoutError rt opts p).
           split; [cbn [In]; auto|]. split; [reflexivity|exact Ht].
        -- right. right. split; [reflexivity|].
           exists (timeoutError rt opts p). split; [cbn [In]; auto|exact Ht].
      * destruct (sig p) as [s|]; [|congruence]. destruct (aborted s); [congruence|].
        destruct (abortListener _); [|cbn [settled setSig] in Ho; congruence].
        unfold onAbort in Ho. rewrite onDone_settled in Ho.
        cbn [settled setSig] in Ho. rewrite Hsp, truthy_abortError in Ho.
        inversion Ho. right. eauto.
      * destruct (inflight p); [congruence|]. unfold onFulfilled in *.
        rewrite onDone_settled in Ho.
        cbn [settled emit setInflight setPromiseStatus truthy] in Ho.
        rewrite Hsp in Ho. inversion Ho. right. left. rewrite onDone_log.
        cbn [In log emit setPromiseStatus truthy]. auto.
      * destruct (inflight p); [congruence|].
        cbn [settled onRejected emit setInflight setPromiseStatus setLastError] in Ho.
        congruence.
      * unfold pump in Ho. destruct (_ && _); cbn [settled emit] in Ho; congruence.
Qed.

End Provenance.

(** X9: a poller never rejects with a failure of the check as such: every
    rejection is either what [onTimeout] returned, truthy, for the error the
    deadline passed to it, or the error of an abort. *)
Theorem X9_rejections_come_from_timeout_or_abort
    (rt : Runtime) (invoke : nat -> CheckResult) (opts : ImplOptions)
    (p : Poller) (x : Value) :
  reachable rt invoke opts p ->
  settled p = Some (Rejected x) ->
  (exists arg, In (CallOnTimeout arg) (log p) /\
               x = onTimeout opts arg /\ truthy x = true) \/
  (exists site why, x = abortError rt site why).
Proof.
  intros Hr Ho. exact (outcome_in_log rt invoke opts p Hr (Rejected x) Ho).
Qed.

Lemma X9_rejection_witness :
  (exists arg, In (CallOnTimeout arg) (log timedOutPoller) /\
               errorX = onTimeout implOptionsWithClock arg /\ truthy errorX = true) \/
  (exists site why, errorX = abortError withStacks site why).
Proof.
  apply (X9_rejections_come_from_timeout_or_abort withStacks (alwaysThrows errorX)
           implOptionsWithClock timedOutPoller errorX).
  - exists [Resume; Tick; Resume; Deadline]. reflexivity.
  - vm_compute. reflexivity.
Defined.

(** X10: a poller resolves only with a value the check returned, with a
    value a promise of the check was fulfilled with, or with [null] after
    [onTimeout] returned a falsy value at the deadline. *)
Theorem X10_resolutions_come_from_the_check
    (rt : Runtime) (invoke : nat -> CheckResult) (opts : ImplOptions)
    (p : Poller) (v : Value) :
  reachable rt invoke opts p ->
  settled p = Some (Resolved v) ->
  In (Called (Returns v)) (log p) \/
  In (DeferredFulfilled v) (log p) \/
  (v = VNull /\
   exists arg, In (CallOnTimeout arg) (log p) /\ truthy (onTimeout opts arg) = false).
Proof.
  intros Hr Ho. exact (outcome_in_log rt invoke opts p Hr (Resolved v) Ho).
Qed.

Lemma X10_resolution_witness :
  In (Called (Returns (VString "Done")))
     (log (run withStacks doneAtThird optionsEightFive [Tick; Tick]
             (executor withStacks doneAtThird optionsEightFive))) \/
  In (DeferredFulfilled (VString "Done"))
     (log (run withStacks doneAtThird optionsEightFive [Tick; Tick]
             (executor withStacks doneAtThird optionsEightFive))) \/
  (VString "Done" = VNull /\
   exists arg,
     In (CallOnTimeout arg)
        (log (run withStacks doneAtThird optionsEightFive [Tick; Tick]
                (executor withStacks doneAtThird optionsEightFive))) /\
     truthy (onTimeout optionsEightFive arg) = false).
Proof.
  apply (X10_resolutions_come_from_the_check withStacks doneAtThird optionsEightFive
           (run withStacks doneAtThird optionsEightFive [Tick; Tick]
              (executor withStacks doneAtThird optionsEightFive)) (VString "Done")).
  - exists [Tick; Tick]. reflexivity.
  - vm_compute. reflexivity.
Defined.

(** ** Invariants of the poller's state *)

(** X11: handlers are attached to at most one promise of the check at a
    time, and to one exactly while [promiseStatus] is ['pending']: a second
    promise is never awaited beside the first. *)
Theorem X11_one_promise_at_a_time
    (rt : Runtime) (invoke : nat -> CheckResult) (opts : ImplOptions) (p : Poller) :
  reachable rt invoke opts p ->
  inflight p <= 1 /\ (inflight p = 1 <-> promiseStatus p = Pending).
Proof.
  intros Hr. pose proof (reachable_wf rt invoke opts p Hr) as [_ _ _ Hin _ _].
  rewrite Hin. destruct (promiseStatus p); cbn [isPending];
    repeat split; try lia; intros; congruence.
Qed.

Lemma X11_one_promise_witness :
  inflight waitingForPromise <= 1 /\
  (inflight waitingForPromise = 1 <-> promiseStatus waitingForPromise = Pending).
Proof.
  apply (X11_one_promise_at_a_time withStacks (alwaysReturns aPromise) optionsEightFive
           waitingForPromise).
  exists [Tick]. reflexivity.
Defined.

(** X12: the two timers live and die together with the decision: in every
    reachable poller the deadline timer is set exactly when the interval
    timer is, and both are set exactly as long as the promise is undecided
    and [finished] is false. *)
Theorem X12_timers_set_until_settled
    (rt : Runtime) (invoke : nat -> CheckResult) (opts : ImplOptions) (p : Poller) :
  reachable rt invoke opts p ->
  timeoutTimer p = intervalTimer p /\
  (settled p = None <-> timeoutTimer p = true) /\
  (settled p = None <-> finished p = false).
Proof.
  intros Hr. pose proof (reachable_wf rt invoke opts p Hr) as [Ht Hi Hf _ _ _].
  unfold isSettled in Hf. rewrite Ht, Hi, Hf.
  destruct (settled p); cbn [negb]; repeat split; intros; congruence.
Qed.

Lemma X12_timers_witness :
  timeoutTimer waitingWithSignal = intervalTimer waitingWithSignal /\
  (settled waitingWithSignal = None <-> timeoutTimer waitingWithSignal = true) /\
  (settled waitingWithSignal = None <-> finished waitingWithSignal = false).
Proof.
  apply (X12_timers_set_until_settled withStacks (alwaysThrows errorX) implOptionsLive
           waitingWithSignal).
  exists [Tick]. reflexivity.
Defined.

(** ** [copyStackTrace] on its own *)

(** X13: [copyStackTrace] gives the target the stack of the source with the
    first occurrence of the source's message replaced by the target's
    message; the text before and after that occurrence, the frames, is
    kept as it is.  The target's message must hold no [$], which [replace]
    would expand. *)
Theorem X13_copyStackTrace_keeps_frames
    (target source : ErrorObj) (header frames : string) :
  stack source = Some (header ++ message source ++ frames) ->
  (forall a, occursAfter (message source) a (header ++ message source ++ frames) ->
             String.length header <= String.length a) ->
  dollarFree (message target) = true ->
  copyStackTrace target source
  = mkError (name target) (message target)
      (Some (header ++ message target ++ frames)).
Proof.
  intros Hs Hfirst Hd. unfold copyStackTrace. rewrite Hs. unfold replace.
  rewrite (replaceFrom_first _ _ _ _ _ Hfirst), getSubstitution_dollarFree by exact Hd.
  reflexivity.
Qed.

(** X14: when the source's message occurs nowhere in its stack,
    [copyStackTrace] copies that stack to the target character for
    character; when the source has no stack at all, the target keeps the
    stack it had.  Name and message of the target are never changed. *)
Theorem X14_copyStackTrace_without_message
    (target source : ErrorObj) :
  match stack source with
  | Some s => forall a, ~ occursAfter (message source) a s
  | None => True
  end ->
  copyStackTrace target source
  = mkError (name target) (message target)
      (match stack source with Some s => Some s | None => stack target end).
Proof.
  intros H. unfold copyStackTrace. destruct (stack source) as [s|].
  - unfold replace. now rewrite (replaceFrom_absent _ _ _ _ H).
  - destruct target; reflexivity.
Qed.

(** X15: in a runtime whose stacks begin with "Error: ", the message and
    then the frames, the timeout error that [waitFor] delivers by default
    carries the frames captured at the call of [waitFor], whatever they
    are, under the line "Error: Timed out in waitFor.". *)
Theorem X15_timeout_error_carries_caller_frames
    (rt : Runtime) (options : WaitForOptions) (p : Poller) (frames : string) :
  rt AtWaitFor STACK_TRACE_MESSAGE = Some ("Error: STACK_TRACE_MESSAGE" ++ frames) ->
  optShowOriginalStackTrace options = None ->
  truthy (lastError p) = false ->
  timeoutError rt
    (withDefaults (newError STACK_TRACE_MESSAGE (rt AtWaitFor STACK_TRACE_MESSAGE)) options) p
  = VError (mkError "Error" "Timed out in waitFor."
              (Some ("Error: Timed out in waitFor." ++ frames))).
Proof.
  intros Hrt Hshow Hl. unfold timeoutError. rewrite Hl.
  cbn [showOriginalStackTrace withDefaults stackTraceError]. rewrite Hshow.
  cbn [orDefault negb]. unfold copyStackTrace. rewrite Hrt.
  cbn [stack newError message name]. unfold replace.
  destruct frames; vm_compute; reflexivity.
Qed.

Lemma X13_copyStackTrace_witness :
  copyStackTrace (newError TIMEOUT_MESSAGE None) capturedError
  = mkError (name (newError TIMEOUT_MESSAGE None)) (message (newError TIMEOUT_MESSAGE None))
      (Some ("Error: " ++ message (newError TIMEOUT_MESSAGE None)
               ++ (newline ++ frame AtWaitFor))).
Proof.
  apply (X13_copyStackTrace_keeps_frames (newError TIMEOUT_MESSAGE None) capturedError
           "Error: " (newline ++ frame AtWaitFor)).
  - reflexivity.
  - intros a [b Hb].
    do 7 (destruct a as [|? a]; [vm_compute in Hb; discriminate Hb|]).
    cbn. lia.
  - reflexivity.
Defined.

Lemma X14_copyStackTrace_witness :
  copyStackTrace (newError TIMEOUT_MESSAGE None) errorWithForeignStack
  = mkError (name (newError TIMEOUT_MESSAGE None)) (message (newError TIMEOUT_MESSAGE None))
      (match stack errorWithForeignStack with
       | Some s => Some s
       | None => stack (newError TIMEOUT_MESSAGE None)
       end).
Proof.
  apply (X14_copyStackTrace_without_message (newError TIMEOUT_MESSAGE None)
           errorWithForeignStack).
  cbn [stack errorWithForeignStack message]. intros a [b Hb].
  do 24 (destruct a as [|? a]; [vm_compute in Hb; discriminate Hb|]).
  vm_compute in Hb. discriminate Hb.
Defined.

Lemma X15_caller_frames_witness :
  timeoutError withStacks
    (withDefaults (newError STACK_TRACE_MESSAGE (withStacks AtWaitFor STACK_TRACE_MESSAGE))
       noOptions)
    (executor withStacks (alwaysReturns aPromise) optionsEightFive)
  = VError (mkError "Error" "Timed out in waitFor."
              (Some ("Error: Timed out in waitFor." ++ (newline ++ frame AtWaitFor)))).
Proof.
  apply (X15_timeout_error_carries_caller_frames withStacks noOptions
           (executor withStacks (alwaysReturns aPromise) optionsEightFive)
           (newline ++ frame AtWaitFor)).
  - vm_compute. reflexivity.
  - reflexivity.
  - vm_compute. reflexivity.
Defined.

(** A message with [$&] in the target would be expanded by [replace]: the
    matched text, the source's message, is put in its place. *)
Example dollar_in_target_message :
  stack (copyStackTrace (newError "cost: $&" None) (mkError "Error" "M" (Some "Error: M at f")))
  = Some "Error: cost: M at f".
Proof. reflexivity. Qed.

(** ** A rejected promise and the deadline *)

(** X16: when a promise returned by the check is rejected with a truthy
    value and the deadline fires before the next tick, that value is the
    terminal error: the poller settles with what [onTimeout] returns for
    it, a rejection with it when truthy, without another invocation of the
    check. *)
Theorem X16_rejection_reported_at_deadline
    (rt : Runtime) (invoke : nat -> CheckResult) (opts : ImplOptions)
    (p : Poller) (e : Value) :
  reachable rt invoke opts p ->
  settled p = None ->
  promiseStatus p = Pending ->
  truthy e = true ->
  settled (run rt invoke opts [RejectWith e; Deadline] p)
  = Some (if truthy (onTimeout opts e) then Rejected (onTimeout opts e)
          else Resolved VNull) /\
  calls (run rt invoke opts [RejectWith e; Deadline] p) = calls p.
Proof.
  intros Hr Hn Hp He.
  pose proof (reachable_wf rt invoke opts p Hr) as Hwf.
  pose proof Hwf as [Ht _ Hf Hin _ _].
  rewrite Hp in Hin. cbn [isPending] in Hin.
  unfold isSettled in Hf. rewrite Hn in Hf. rewrite Hf in Ht. cbn [negb] in Ht.
  cbn [run]. set (q := fire rt invoke opts (RejectWith e) p).
  assert (Hq : q = onRejected e (emit (DeferredRejected e) (setInflight 0 p))).
  { unfold q. cbn [fire]. now rewrite Hin. }
  assert (Hqt : timeoutTimer q = true) by (rewrite Hq; exact Ht).
  assert (Hqn : settled q = None) by (rewrite Hq; exact Hn).
  assert (Hql : lastError q = e) by (rewrite Hq; reflexivity).
  assert (Hqc : calls q = calls p) by (rewrite Hq; reflexivity).
  assert (Hte : timeoutError rt opts q = e).
  { unfold timeoutError. now rewrite Hql, He. }
  cbn [fire]. rewrite Hqt. split.
  - rewrite (handleTimeout_settled rt opts q Hqn), Hte. reflexivity.
  - unfold handleTimeout. rewrite onDone_calls. exact Hqc.
Qed.

Lemma X16_rejection_witness :
  settled (run withStacks (alwaysReturns aPromise) optionsEightFive
             [RejectWith notDone; Deadline] waitingForPromise)
  = Some (if truthy (onTimeout optionsEightFive notDone)
          then Rejected (onTimeout optionsEightFive notDone)
          else Resolved VNull) /\
  calls (run withStacks (alwaysReturns aPromise) optionsEightFive
           [RejectWith notDone; Deadline] waitingForPromise)
  = calls waitingForPromise.
Proof.
  apply (X16_rejection_reported_at_deadline withStacks (alwaysReturns aPromise)
           optionsEightFive waitingForPromise notDone).
  - exists [Tick]. reflexivity.
  - vm_compute. reflexivity.
  - vm_compute. reflexivity.
  - reflexivity.
Defined.
